(** * Pilot command start-up: a shallow embedding of cmd/pilot/main.go

    The commands of the pilot binary (discovery, sidecar, ingress, egress,
    version) are embedded as computations in a small monad that threads the
    package-level variables, records the calls made to collaborating
    packages as a trace, and has Go's early [return] and run-time panics. *)

From Stdlib Require Import ZArith.
From stdpp Require Import base strings list gmap.

Local Open Scope string_scope.
Local Open Scope list_scope.

(** ** Data model *)

(** [type Adapter string] and its two constants. *)
Definition Adapter := string.
Definition KubernetesAdapter : Adapter := "Kubernetes".
Definition VMsAdapter : Adapter := "VMs".

(** [type VMsArgs struct]. *)
Record VMsArgs := mkVMsArgs {
  config : string;
  serverURL : string;
  authToken : string
}.

(** The fields of [kube.ControllerOptions] that main.go binds flags to. *)
Record ControllerOptions := mkControllerOptions {
  Namespace : string;
  ResyncPeriod : Z;
  DomainSuffix : string
}.

(** The fields of [envoy.DiscoveryServiceOptions] bound to flags. *)
Record DiscoveryServiceOptions := mkDiscoveryServiceOptions {
  Port : Z;
  EnableProfiling : bool;
  EnableCaching : bool
}.

(** [type args struct]. *)
Record args := mkArgs {
  kubeconfig : string;
  meshConfig : string;
  ipAddress : string;
  podName : string;
  passthrough : list Z;
  controllerOptions : ControllerOptions;
  discoveryOptions : DiscoveryServiceOptions;
  adapter : Adapter;
  vmsArgs : VMsArgs
}.

Definition set_adapter (a : Adapter) (f : args) : args :=
  mkArgs (kubeconfig f) (meshConfig f) (ipAddress f) (podName f) (passthrough f)
         (controllerOptions f) (discoveryOptions f) a (vmsArgs f).
Definition set_kubeconfig (k : string) (f : args) : args :=
  mkArgs k (meshConfig f) (ipAddress f) (podName f) (passthrough f)
         (controllerOptions f) (discoveryOptions f) (adapter f) (vmsArgs f).
Definition set_ipAddress (a : string) (f : args) : args :=
  mkArgs (kubeconfig f) (meshConfig f) a (podName f) (passthrough f)
         (controllerOptions f) (discoveryOptions f) (adapter f) (vmsArgs f).
Definition set_podName (p : string) (f : args) : args :=
  mkArgs (kubeconfig f) (meshConfig f) (ipAddress f) p (passthrough f)
         (controllerOptions f) (discoveryOptions f) (adapter f) (vmsArgs f).
Definition set_Namespace (n : string) (f : args) : args :=
  mkArgs (kubeconfig f) (meshConfig f) (ipAddress f) (podName f) (passthrough f)
         (mkControllerOptions n (ResyncPeriod (controllerOptions f))
                              (DomainSuffix (controllerOptions f)))
         (discoveryOptions f) (adapter f) (vmsArgs f).

(** Go [error] values.  A variable of type [error] is an [option error];
    [None] is [nil]. *)
Inductive error :=
| Err (msg : string)                       (* produced by a collaborator *)
| Prefix (e : error) (prefix : string)     (* multierror.Prefix(err, prefix) *)
| Errorf (format : string) (e : error).    (* fmt.Errorf(format, err) *)

(** Handles obtained from the collaborating packages.  A handle is the
    record of the call that produced it. *)
Inductive KubeInterface := KubeIface (kubeconfig : string).
Inductive VmsClient := VmsCli (URL AuthToken : string).
Inductive TprClient := TprCli (kubeconfig : string) (descriptor : list string) (ns : string).

Inductive IngressMode :=
| ProxyMeshConfig_OFF | ProxyMeshConfig_DEFAULT | ProxyMeshConfig_STRICT.

(** [proxyconfig.ProxyMeshConfig]: the one field main.go writes, and the rest. *)
Record ProxyMeshConfig := mkMesh {
  IngressControllerMode : IngressMode;
  meshBody : string
}.

(** The argument in client position of [ingress.NewStatusSyncer]: main.go
    passes the Kubernetes client at one call site and the VMs client at
    another. *)
Inductive ClientArg :=
| KubeArg (c : option KubeInterface)
| VmsArg (c : option VmsClient).

(** Values stored in variables of the interface types
    [model.ServiceDiscovery] and [model.ConfigStoreCache]. *)
#[local] Unset Elimination Schemes.
Inductive Controller :=
| KubeController (c : option KubeInterface) (m : option ProxyMeshConfig)
                 (o : ControllerOptions)                (* kube.NewController *)
| TprController (c : TprClient) (resync : Z)            (* tpr.NewController *)
| IngressController (c : option KubeInterface) (m : option ProxyMeshConfig)
                    (o : ControllerOptions)             (* ingress.NewController *)
| VmsController (d : option VmsClient) (m : option ProxyMeshConfig)
                                                        (* vms.NewController *)
| AggregateCache (srcs : list Controller).              (* aggregate.MakeCache *)
#[local] Set Elimination Schemes.

Inductive StatusSyncer :=
| NewStatusSyncer (m : option ProxyMeshConfig) (c : ClientArg) (o : ControllerOptions).

Inductive IstioStore := MakeIstioStore (c : option Controller).

Inductive VmsSidecarConfig := VmsConfigOf (file : option string).
Inductive Identity := IdentityOf (c : VmsSidecarConfig).
Inductive RegistrationAgent := RegAgent (registry : option VmsClient) (id : Identity).

(** [proxy.Context]; fields a composite literal leaves out are zero. *)
Record Context := mkContext {
  Discovery : option Controller;
  Accounts : option Controller;
  Config : IstioStore;
  MeshConfig : option ProxyMeshConfig;
  IPAddress : string;
  UID : string;
  Registraion : option RegistrationAgent;
  PassthroughPorts : list Z
}.

Inductive DiscoveryService :=
| MkDiscoveryService (sc cc : option Controller) (ctx : Context)
                     (o : DiscoveryServiceOptions).

Inductive SecretRegistry := MakeSecretRegistry (c : option KubeInterface).

Inductive Watcher :=
| SidecarWatcher (sc cc : option Controller) (ctx : Context)   (* envoy.NewWatcher *)
| IngressWatcher (m : option ProxyMeshConfig) (s : SecretRegistry)
| EgressWatcher (m : option ProxyMeshConfig).

(** Channels made by [make(chan struct{})], named by allocation order. *)
Definition Chan := nat.

(** The long-running loops a command launches with a [go] statement. *)
Inductive Loop :=
| ServiceControllerLoop | ConfigControllerLoop
| DiscoveryLoop | IngressSyncerLoop | WatcherLoop.

Global Instance Loop_eq_dec : EqDecision Loop.
Proof. solve_decision. Defined.

(** What the main goroutine does, in program order. *)
Inductive Event :=
| EvInfof (format : string)                       (* glog.V(2).Infof *)
| EvCreateInterface (kubeconfig : string)
| EvGetMeshConfig (c : KubeInterface) (ns name : string)
| EvVmsclientNew (url token : string)
| EvTprNewClient (kubeconfig : string) (ns : string)
| EvRegisterResources (c : TprClient)
| EvNewController (c : Controller)
| EvMakeCache (srcs : list Controller)
| EvNewStatusSyncer (s : StatusSyncer)
| EvNewDiscoveryService (sc cc : option Controller) (ctx : Context)
| EvNewWatcher (sc cc : option Controller) (ctx : Context)
| EvLoadFromFile (file : string)
| EvIdentityNew (c : VmsSidecarConfig)
| EvNewRegistrationAgent (registry : option VmsClient) (id : Identity)
| EvNewIngressWatcher (m : option ProxyMeshConfig)
| EvNewEgressWatcher (m : option ProxyMeshConfig)
| EvMakeChan (c : Chan)                           (* stop := make(chan struct{}) *)
| EvGoServiceController (c : option Controller) (stop : Chan)
| EvGoConfigController (c : option Controller) (stop : Chan)
| EvGoDiscovery (d : DiscoveryService)            (* go discovery.Run() *)
| EvGoIngressSyncer (s : StatusSyncer) (stop : Chan)
| EvGoWatcher (w : Watcher) (stop : Chan)
| EvWaitSignal (stop : Chan)                      (* cmd.WaitSignal(stop) *)
| EvPrint (s : string)
| EvError (e : error)                             (* glog.Error(err) *)
| EvExit (code : Z).                              (* os.Exit(code) *)

(** The loop an event launches, and the stop channel handed to its [Run].
    A [go] statement on a nil interface value launches nothing. *)
Definition launched (e : Event) : option (Loop * option Chan) :=
  match e with
  | EvGoServiceController (Some _) c => Some (ServiceControllerLoop, Some c)
  | EvGoConfigController (Some _) c => Some (ConfigControllerLoop, Some c)
  | EvGoDiscovery _ => Some (DiscoveryLoop, None)
  | EvGoIngressSyncer _ c => Some (IngressSyncerLoop, Some c)
  | EvGoWatcher _ c => Some (WatcherLoop, Some c)
  | _ => None
  end.

(** Projections of a trace. *)
Definition launches (t : list Event) : list (Loop * option Chan) := omap launched t.
Definition chansMade (t : list Event) : list Chan :=
  omap (fun e => match e with EvMakeChan c => Some c | _ => None end) t.
Definition errorsLogged (t : list Event) : list error :=
  omap (fun e => match e with EvError x => Some x | _ => None end) t.
Definition syncersBuilt (t : list Event) : list StatusSyncer :=
  omap (fun e => match e with EvNewStatusSyncer x => Some x | _ => None end) t.
Definition syncersRun (t : list Event) : list StatusSyncer :=
  omap (fun e => match e with EvGoIngressSyncer x _ => Some x | _ => None end) t.
Definition discoveryRequests (t : list Event) : list Context :=
  omap (fun e => match e with EvNewDiscoveryService _ _ x => Some x | _ => None end) t.

(** ** The collaborators

    What the packages outside main.go answer: the environment, and for each
    call that can fail whether it does. *)
Record World := mkWorld {
  Getenv : string -> string;
  CreateInterface_err : string -> option error;
  GetMeshConfig_res : KubeInterface -> string -> string -> error + ProxyMeshConfig;
  DefaultMeshConfig : ProxyMeshConfig;
  vmsclient_New_err : string -> string -> option error;
  tpr_NewClient_err : string -> string -> option error;
  RegisterResources_err : TprClient -> option error;
  MakeCache_err : list Controller -> option error;
  NewDiscoveryService_err : option Controller -> option Controller -> Context -> option error;
  NewWatcher_err : option Controller -> option Controller -> Context -> option error;
  loadFromFile_err : string -> option error;
  identity_New_err : VmsSidecarConfig -> option error;
  NewRegistrationAgent_err : option VmsClient -> Identity -> option error;
  NewIngressWatcher_err : option ProxyMeshConfig -> option error;
  NewEgressWatcher_err : option ProxyMeshConfig -> option error;
  version_Version : string
}.

(** ** Package-level variables

    [mesh] is a pointer.  An object built from it records the configuration
    it points to at that moment; the one write through it (sidecarCmd,
    line 220) comes before everything that command builds. *)
Record State := mkState {
  flags : args;
  client : option KubeInterface;
  vmsClient : option VmsClient;
  mesh : option ProxyMeshConfig;
  nextChan : nat
}.

(** ** The monad: state, trace, early return, panic *)
Inductive PanicValue := NilDereference.

Inductive Res (A : Type) :=
| Val (a : A)
| Return (e : option error)
| Panic (p : PanicValue).
Arguments Val {A} a.
Arguments Return {A} e.
Arguments Panic {A} p.

Definition M (A : Type) : Type := State -> Res A * State * list Event.

Global Instance M_ret : MRet M := fun A a s => (Val a, s, []).
Global Instance M_bind : MBind M := fun A B f m s =>
  match m s with
  | (Val a, s1, t1) => let '(r, s2, t2) := f a s1 in (r, s2, t1 ++ t2)
  | (Return e, s1, t1) => (Return e, s1, t1)
  | (Panic p, s1, t1) => (Panic p, s1, t1)
  end.

Definition emit (e : Event) : M unit := fun s => (Val tt, s, [e]).
Definition return_ {A} (e : option error) : M A := fun s => (Return e, s, []).
Definition panic {A} (p : PanicValue) : M A := fun s => (Panic p, s, []).
Definition get : M State := fun s => (Val s, s, []).
Definition put (s : State) : M unit := fun _ => (Val tt, s, []).

Definition getFlags : M args := s ← get; mret (flags s).
Definition setFlags (f : args -> args) : M unit :=
  s ← get; put (mkState (f (flags s)) (client s) (vmsClient s) (mesh s) (nextChan s)).
Definition setClient (c : option KubeInterface) : M unit :=
  s ← get; put (mkState (flags s) c (vmsClient s) (mesh s) (nextChan s)).
Definition setVmsClient (c : option VmsClient) : M unit :=
  s ← get; put (mkState (flags s) (client s) c (mesh s) (nextChan s)).
Definition setMesh (m : option ProxyMeshConfig) : M unit :=
  s ← get; put (mkState (flags s) (client s) (vmsClient s) m (nextChan s)).

(** [make(chan struct{})]: a channel distinct from all made before. *)
Definition makeChan : M Chan :=
  s ← get;
  put (mkState (flags s) (client s) (vmsClient s) (mesh s) (S (nextChan s)));;
  emit (EvMakeChan (nextChan s));;
  mret (nextChan s).

Definition when (b : bool) (m : M unit) : M unit := if b then m else mret tt.

(** [go x.Run(stop)] for [x] of interface type: the statement is reached
    with the value of [x]; the method value is evaluated in the calling
    goroutine, so a nil [x] panics there and no goroutine is created. *)
Definition goRun (ev : option Controller -> Chan -> Event) (x : option Controller)
    (stop : Chan) : M unit :=
  emit (ev x stop);;
  match x with
  | None => panic NilDereference
  | Some _ => mret tt
  end.

(** ** rootCmd.PersistentPreRunE (lines 92-141)

    The assignments [client, err = ...], [mesh, err = ...] and
    [vmsClient, err = ...] store both results; a failing call is taken to
    answer a nil first result.  The result parameter [err] is nil at the
    final bare [return], every earlier error having been returned. *)
Definition PersistentPreRunE (w : World) : M unit :=
  f ← getFlags;
  when (bool_decide (adapter f = "")) (setFlags (set_adapter KubernetesAdapter));;
  f ← getFlags;
  (if decide (adapter f = KubernetesAdapter) then
     when (bool_decide (kubeconfig f = ""))
       (let v := Getenv w "KUBECONFIG" in
        when (bool_decide (v ≠ ""))
          (emit (EvInfof "Setting configuration from KUBECONFIG environment variable");;
           setFlags (set_kubeconfig v)));;
     f ← getFlags;
     emit (EvCreateInterface (kubeconfig f));;
     match CreateInterface_err w (kubeconfig f) with
     | Some err =>
         setClient None;;
         return_ (Some (Prefix err "failed to connect to Kubernetes API."))
     | None =>
         let c := KubeIface (kubeconfig f) in
         setClient (Some c);;
         when (bool_decide (ipAddress f = "")) (setFlags (set_ipAddress (Getenv w "POD_IP")));;
         when (bool_decide (podName f = "")) (setFlags (set_podName (Getenv w "POD_NAME")));;
         when (bool_decide (Namespace (controllerOptions f) = ""))
           (setFlags (set_Namespace (Getenv w "POD_NAMESPACE")));;
         emit (EvInfof "version %s");;
         emit (EvInfof "flags %s");;
         f ← getFlags;
         emit (EvGetMeshConfig c (Namespace (controllerOptions f)) (meshConfig f));;
         match GetMeshConfig_res w c (Namespace (controllerOptions f)) (meshConfig f) with
         | inl err =>
             setMesh None;;
             return_ (Some (Prefix err "failed to retrieve mesh configuration."))
         | inr m => setMesh (Some m)
         end
     end
   else if decide (adapter f = VMsAdapter) then
     let url := serverURL (vmsArgs f) in
     let tok := authToken (vmsArgs f) in
     emit (EvVmsclientNew url tok);;
     match vmsclient_New_err w url tok with
     | Some err =>
         setVmsClient None;;
         return_ (Some (Prefix err "failed to create VMs client."))
     | None =>
         setVmsClient (Some (VmsCli url tok));;
         setMesh (Some (DefaultMeshConfig w))
     end
   else mret tt);;
  emit (EvInfof "mesh configuration %s");;
  return_ None.

(** The descriptor both commands hand to [tpr.NewClient]. *)
Definition routeAndPolicy : list string :=
  ["RouteRuleDescriptor"; "DestinationPolicyDescriptor"].

(** ** discoveryCmd.RunE (lines 147-204)

    The three [var] declarations start out nil.  Each adapter branch assigns
    them; with any other adapter they stay nil.  Constructors that only wrap
    their arguments ([model.MakeIstioStore], [kube.MakeSecretRegistry])
    leave no event. *)
Definition discoveryRunE (w : World) : M unit :=
  s ← get;
  let f := flags s in
  '(serviceController, configController, ingressSyncer) ←
    (if decide (adapter f = KubernetesAdapter) then
       emit (EvTprNewClient (kubeconfig f) (Namespace (controllerOptions f)));;
       match tpr_NewClient_err w (kubeconfig f) (Namespace (controllerOptions f)) with
       | Some err => return_ (Some (Prefix err "failed to open a TPR client"))
       | None =>
           let tprClient :=
             TprCli (kubeconfig f) routeAndPolicy (Namespace (controllerOptions f)) in
           emit (EvRegisterResources tprClient);;
           match RegisterResources_err w tprClient with
           | Some err =>
               return_ (Some (Prefix err "failed to register Third-Party Resources."))
           | None =>
               let sc := KubeController (client s) (mesh s) (controllerOptions f) in
               emit (EvNewController sc);;
               let tc := TprController tprClient (ResyncPeriod (controllerOptions f)) in
               emit (EvNewController tc);;
               let ic := IngressController (client s) (mesh s) (controllerOptions f) in
               emit (EvNewController ic);;
               emit (EvMakeCache [tc; ic]);;
               match MakeCache_err w [tc; ic] with
               | Some err => return_ (Some err)
               | None =>
                   let sy := NewStatusSyncer (mesh s) (KubeArg (client s))
                                             (controllerOptions f) in
                   emit (EvNewStatusSyncer sy);;
                   mret (Some sc, Some (AggregateCache [tc; ic]), Some sy)
               end
           end
       end
     else if decide (adapter f = VMsAdapter) then
       let controller := VmsController (vmsClient s) (mesh s) in
       emit (EvNewController controller);;
       let sy := NewStatusSyncer (mesh s) (VmsArg (vmsClient s)) (controllerOptions f) in
       emit (EvNewStatusSyncer sy);;
       mret (Some controller, Some controller, Some sy)
     else mret (None, None, None));
  let context :=
    mkContext serviceController serviceController (MakeIstioStore configController)
              (mesh s) "" "" None [] in
  emit (EvNewDiscoveryService serviceController configController context);;
  match NewDiscoveryService_err w serviceController configController context with
  | Some err => return_ (Some (Errorf "failed to create discovery service: %v" err))
  | None =>
      let discovery :=
        MkDiscoveryService serviceController configController context
                           (discoveryOptions f) in
      (* line 194: ingressSyncer is bound again, whatever the branch stored *)
      let ingressSyncer :=
        NewStatusSyncer (mesh s) (KubeArg (client s)) (controllerOptions f) in
      emit (EvNewStatusSyncer ingressSyncer);;
      stop ← makeChan;
      goRun EvGoServiceController serviceController stop;;
      goRun EvGoConfigController configController stop;;
      emit (EvGoDiscovery discovery);;
      emit (EvGoIngressSyncer ingressSyncer stop);;
      emit (EvWaitSignal stop);;
      return_ None
  end.

(** ** sidecarCmd.RunE (lines 215-288)

    The function has the named result [err].  In the Kubernetes branch
    [serviceController], [tprClient], [err] and [configController] are
    declared with [:=] inside the block, so the variables of the same names
    outside it, and the result parameter, are not assigned there; a bare
    [return] returns the result parameter.  In the VMs branch the same holds
    for [regAgent].  [watcher, err := envoy.NewWatcher(...)] is at function
    level, where [err] is the result parameter. *)
Definition sidecarRunE (w : World) : M unit :=
  let err : option error := None in
  s ← get;
  match mesh s with
  | None => panic NilDereference
  | Some m => setMesh (Some (mkMesh ProxyMeshConfig_OFF (meshBody m)))
  end;;
  s ← get;
  let f := flags s in
  '(serviceController, configController, uid) ←
    (if decide (adapter f = KubernetesAdapter) then
       let serviceController_inner :=
         KubeController (client s) (mesh s) (controllerOptions f) in
       emit (EvNewController serviceController_inner);;
       emit (EvTprNewClient (kubeconfig f) (Namespace (controllerOptions f)));;
       match tpr_NewClient_err w (kubeconfig f) (Namespace (controllerOptions f)) with
       | Some err_inner => return_ err
       | None =>
           let tprClient :=
             TprCli (kubeconfig f) routeAndPolicy (Namespace (controllerOptions f)) in
           let configController_inner :=
             TprController tprClient (ResyncPeriod (controllerOptions f)) in
           emit (EvNewController configController_inner);;
           mret (None, None,
                 "kubernetes://" +:+ podName f +:+ "." +:+ Namespace (controllerOptions f))
       end
     else if decide (adapter f = VMsAdapter) then
       let controller := VmsController (vmsClient s) (mesh s) in
       emit (EvNewController controller);;
       emit (EvLoadFromFile (config (vmsArgs f)));;
       match loadFromFile_err w (config (vmsArgs f)) with
       | Some e => return_ (Some (Prefix e "failed to read vms config file."))
       | None =>
           let vmsConfig := VmsConfigOf (Some (config (vmsArgs f))) in
           emit (EvIdentityNew vmsConfig);;
           match identity_New_err w vmsConfig with
           | Some e => return_ (Some (Prefix e "failed to create identity for service."))
           | None =>
               let identity := IdentityOf vmsConfig in
               emit (EvNewRegistrationAgent (vmsClient s) identity);;
               match NewRegistrationAgent_err w (vmsClient s) identity with
               | Some e =>
                   return_ (Some (Prefix e "failed to create registration agent."))
               | None => mret (Some controller, Some controller, "")
               end
           end
       end
     else mret (None, None, ""));
  let regAgent : option RegistrationAgent := None in
  let context :=
    mkContext serviceController serviceController (MakeIstioStore configController)
              (mesh s) (ipAddress f) uid regAgent (passthrough f) in
  emit (EvNewWatcher serviceController configController context);;
  match NewWatcher_err w serviceController configController context with
  | Some e => return_ (Some e)
  | None =>
      let watcher := SidecarWatcher serviceController configController context in
      stop ← makeChan;
      goRun EvGoServiceController serviceController stop;;
      goRun EvGoConfigController configController stop;;
      emit (EvGoWatcher watcher stop);;
      emit (EvWaitSignal stop);;
      return_ err
  end.

(** ** ingressCmd.RunE and egressCmd.RunE (lines 294-320) *)
Definition ingressRunE (w : World) : M unit :=
  s ← get;
  emit (EvNewIngressWatcher (mesh s));;
  match NewIngressWatcher_err w (mesh s) with
  | Some err => return_ (Some err)
  | None =>
      let watcher := IngressWatcher (mesh s) (MakeSecretRegistry (client s)) in
      stop ← makeChan;
      emit (EvGoWatcher watcher stop);;
      emit (EvWaitSignal stop);;
      return_ None
  end.

Definition egressRunE (w : World) : M unit :=
  s ← get;
  emit (EvNewEgressWatcher (mesh s));;
  match NewEgressWatcher_err w (mesh s) with
  | Some err => return_ (Some err)
  | None =>
      let watcher := EgressWatcher (mesh s) in
      stop ← makeChan;
      emit (EvGoWatcher watcher stop);;
      emit (EvWaitSignal stop);;
      return_ None
  end.

(** versionCmd.Run has no result. *)
Definition versionRun (w : World) : M unit := emit (EvPrint (version_Version w)).

(** ** The command tree, rootCmd.Execute and main (lines 332-375) *)
Inductive Command := discoveryCmd | sidecarCmd | ingressCmd | egressCmd | versionCmd.

Definition RunE (w : World) (c : Command) : M unit :=
  match c with
  | discoveryCmd => discoveryRunE w
  | sidecarCmd => sidecarRunE w
  | ingressCmd => ingressRunE w
  | egressCmd => egressRunE w
  | versionCmd => versionRun w
  end.

(** Calling a function: its [return] becomes the value of the call. *)
Definition call {A} (m : M A) : M (option error) := fun s =>
  match m s with
  | (Val _, s1, t) => (Val None, s1, t)
  | (Return e, s1, t) => (Val e, s1, t)
  | (Panic p, s1, t) => (Panic p, s1, t)
  end.

(** The hook runs first; the selected command runs only if the hook
    returned nil.  The trace holds what main.go does: what cobra itself
    writes when a function returns an error (the error and the usage text)
    is not part of it. *)
Definition Execute (w : World) (c : Command) : M (option error) :=
  err ← call (PersistentPreRunE w);
  match err with
  | Some e => mret (Some e)
  | None => call (RunE w c)
  end.

(** [main]: the value is the exit status of the process. *)
Definition main (w : World) (c : Command) : M Z :=
  err ← Execute w c;
  match err with
  | Some e => emit (EvError e);; emit (EvExit (-1));; mret (-1)%Z
  | None => mret 0%Z
  end.

(** Package-level variables are zero before [main] runs; the flags are
    what the command line gave. *)
Definition initial (f : args) : State := mkState f None None None 0.

(** Observations of one run. *)
Definition outcome {A} (r : Res A * State * list Event) : Res A := r.1.1.
Definition final {A} (r : Res A * State * list Event) : State := r.1.2.
Definition events {A} (r : Res A * State * list Event) : list Event := r.2.

(** ** Concrete worlds

    [failing bad] answers every call successfully except those named in
    [bad], which fail with an error carrying the name of the call. *)
Definition oops (bad : list string) (name : string) : option error :=
  if bool_decide (name ∈ bad) then Some (Err name) else None.

Definition sampleMesh : ProxyMeshConfig := mkMesh ProxyMeshConfig_DEFAULT "mesh".

Definition failing (bad : list string) : World :=
  mkWorld (fun _ => "")
          (fun _ => oops bad "kube.CreateInterface")
          (fun _ _ _ => match oops bad "cmd.GetMeshConfig" with
                        | Some e => inl e
                        | None => inr sampleMesh
                        end)
          sampleMesh
          (fun _ _ => oops bad "vmsclient.New")
          (fun _ _ => oops bad "tpr.NewClient")
          (fun _ => oops bad "RegisterResources")
          (fun _ => oops bad "aggregate.MakeCache")
          (fun _ _ _ => oops bad "envoy.NewDiscoveryService")
          (fun _ _ _ => oops bad "envoy.NewWatcher")
          (fun _ => oops bad "loadFromFile")
          (fun _ => oops bad "identity.New")
          (fun _ _ => oops bad "register.NewRegistrationAgent")
          (fun _ => oops bad "envoy.NewIngressWatcher")
          (fun _ => oops bad "envoy.NewEgressWatcher")
          "version".

(** The flag defaults of [init].  [init] binds no flag to [flags.adapter] or
    [flags.vmsArgs], so from the command line both are zero and the adapter
    is the Kubernetes one; the adapter is a parameter here so that the
    other branches of the commands can be run as well. *)
Definition defaultFlags (a : Adapter) : args :=
  mkArgs "" "istio" "" "" []
         (mkControllerOptions "" 1000000000 "cluster.local")
         (mkDiscoveryServiceOptions 8080 true true)
         a (mkVMsArgs "" "" "").

(** ** Loop lifecycle

    Modelled from the spec: the bodies of the [Run] methods and of
    [cmd.WaitSignal] are outside main.go, so the state machine of a managed
    loop is the one of section 4.3 (Created, Starting, Running, Stopping,
    Stopped), and [cmd.WaitSignal(stop)] is the point where the stop signal
    it was given fires.  A [go] statement only launches a loop; its first
    sync and its return are steps of the loop's own goroutine, scheduled
    independently of the main goroutine. *)
Inductive Phase := Created | Starting | Running | Stopping | Stopped.

Global Instance Phase_eq_dec : EqDecision Phase.
Proof. solve_decision. Defined.

Record LoopSt := mkLoopSt { phase : Phase; stopChan : option Chan }.

Inductive Step :=
| MainStep (e : Event)     (* the main goroutine performs [e] *)
| FirstSync (l : Loop)     (* [l] completes its first list/sync *)
| Exits (l : Loop).        (* the goroutine of [l] returns *)

Definition advance (l : Loop) (st : LoopSt) (x : Step) : LoopSt :=
  match phase st, x with
  | Created, MainStep e =>
      match launched e with
      | Some (l', c) => if decide (l' = l) then mkLoopSt Starting c else st
      | None => st
      end
  | Starting, FirstSync l' =>
      if decide (l' = l) then mkLoopSt Running (stopChan st) else st
  | Running, MainStep (EvWaitSignal c) =>
      if decide (stopChan st = Some c) then mkLoopSt Stopping (stopChan st) else st
  | Stopping, Exits l' =>
      if decide (l' = l) then mkLoopSt Stopped (stopChan st) else st
  | _, _ => st
  end.

Definition lifecycle (l : Loop) (sched : list Step) : LoopSt :=
  fold_left (advance l) sched (mkLoopSt Created None).

(** The main goroutine's part of a schedule, in order. *)
Definition mainSteps (sched : list Step) : list Event :=
  omap (fun x => match x with MainStep e => Some e | _ => None end) sched.

(** The schedule in which the main goroutine runs without interruption. *)
Definition uninterrupted (t : list Event) : list Step := MainStep <$> t.

Definition isConsumer (l : Loop) : bool :=
  match l with
  | DiscoveryLoop | IngressSyncerLoop | WatcherLoop => true
  | ServiceControllerLoop | ConfigControllerLoop => false
  end.

(** Consumers are launched only once both source loops are [Running]. *)
Definition consumers_wait_for_running (sched : list Step) : Prop :=
  forall pre e post l c,
    sched = pre ++ MainStep e :: post ->
    launched e = Some (l, c) -> isConsumer l = true ->
    phase (lifecycle ServiceControllerLoop pre) = Running /\
    phase (lifecycle ConfigControllerLoop pre) = Running.

(** Consumers are launched only once both source loops were launched. *)
Definition consumers_follow_launch (sched : list Step) : Prop :=
  forall pre e post l c,
    sched = pre ++ MainStep e :: post ->
    launched e = Some (l, c) -> isConsumer l = true ->
    phase (lifecycle ServiceControllerLoop pre) <> Created /\
    phase (lifecycle ConfigControllerLoop pre) <> Created.

(** Every loop that was launched has stopped. *)
Definition all_joined (sched : list Step) : Prop :=
  forall l, phase (lifecycle l sched) <> Created -> phase (lifecycle l sched) = Stopped.

(** ** Aggregate configuration cache

    Modelled from the spec: package adapter/config/aggregate is not part of
    main.go.  Sections 3 and 4.2: a key is (kind, namespace, name); the
    merged view holds at most one object per key; among sources that claim
    one key the first registered wins; the loser's object is suppressed and
    reported as a conflict; [List] concatenates the per-source lists after
    conflict resolution.  A source is its internal cache, a finite map from
    keys to objects; sources are registered in list order. *)
Module aggregate.

Definition ConfigKey : Type := string * string * string.
Definition kindOf (k : ConfigKey) : string := k.1.1.

Record ConfigObject := mkObject { revision : string; payload : string }.

Record Conflict := ConflictDetected {
  conflictKey : ConfigKey;
  losingSource : nat;
  suppressed : ConfigObject
}.

Record Cache := mkCache {
  index : gmap ConfigKey ConfigObject;
  conflicts : list Conflict
}.

(** Registering the sources from position [i] on, over what the earlier
    sources already claimed. *)
Fixpoint mergeFrom (i : nat) (seen : gmap ConfigKey ConfigObject)
    (srcs : list (gmap ConfigKey ConfigObject)) : Cache :=
  match srcs with
  | [] => mkCache seen []
  | s :: rest =>
      let lost :=
        map_to_list (filter (fun kv => is_Some (seen !! kv.1)) s) in
      let r := mergeFrom (S i) (seen ∪ s) rest in
      mkCache (index r)
              (((fun kv => ConflictDetected kv.1 i kv.2) <$> lost) ++ conflicts r)
  end.

Definition MakeCache (srcs : list (gmap ConfigKey ConfigObject)) : Cache :=
  mergeFrom 0 ∅ srcs.

Definition Get (srcs : list (gmap ConfigKey ConfigObject)) (k : ConfigKey)
    : option ConfigObject :=
  index (MakeCache srcs) !! k.

Fixpoint listFrom (seen : gmap ConfigKey ConfigObject)
    (srcs : list (gmap ConfigKey ConfigObject)) (kind : string)
    : list (ConfigKey * ConfigObject) :=
  match srcs with
  | [] => []
  | s :: rest =>
      map_to_list
        (filter (fun kv => kindOf kv.1 = kind /\ seen !! kv.1 = None) s)
      ++ listFrom (seen ∪ s) rest kind
  end.

Definition List (srcs : list (gmap ConfigKey ConfigObject)) (kind : string)
    : list (ConfigKey * ConfigObject) :=
  listFrom ∅ srcs kind.

End aggregate.

(** The sources [discoveryRunE] registers, read off its trace. *)
Definition registered (t : list Event) : list (list Controller) :=
  omap (fun e => match e with EvMakeCache srcs => Some srcs | _ => None end) t.

(** A schedule of a run in which the main goroutine does [t]. *)
Definition schedule_of (t : list Event) (sched : list Step) : Prop :=
  mainSteps sched = t.

(** Program-order check: at every launch of a consumer, both source loops
    are among the loops launched before it. *)
Fixpoint launch_order_ok (seen : list Loop) (t : list Event) : bool :=
  match t with
  | [] => true
  | e :: t' =>
      match launched e with
      | Some (l, _) =>
          (if isConsumer l
           then bool_decide (ServiceControllerLoop ∈ seen /\ ConfigControllerLoop ∈ seen)
           else true)
          && launch_order_ok (l :: seen) t'
      | None => launch_order_ok seen t'
      end
  end.

(** One stop channel is made and every launched loop is given it. *)
Definition stop_reaches_every_loop (t : list Event) : Prop :=
  exists c, chansMade t = [c] /\ forall l oc, (l, oc) ∈ launches t -> oc = Some c.

(** One stop channel is made and every launched loop is given it, except the
    discovery responder, whose [Run] takes no argument. *)
Definition stop_reaches_every_loop_but_discovery (t : list Event) : Prop :=
  forall l oc, (l, oc) ∈ launches t ->
    exists c, chansMade t = [c] /\
              oc = (if decide (l = DiscoveryLoop) then None else Some c).

(** The watcher was requested with nil controllers and a context holding
    nil controllers. *)
Definition watcher_built_with_nil (t : list Event) : Prop :=
  exists ctx, EvNewWatcher None None ctx ∈ t /\
              Discovery ctx = None /\ Accounts ctx = None /\
              Config ctx = MakeIstioStore None.

(** Both [go] statements on the controllers were reached with nil. *)
Definition runs_nil_controllers (t : list Event) : Prop :=
  (exists stop, EvGoServiceController None stop ∈ t) /\
  (exists stop, EvGoConfigController None stop ∈ t).

(** ** Concrete runs used below *)

(** The package-level state after a successful hook under each adapter
    in the world [failing bad] that does not fail the hook. *)
Definition kubeReady : State :=
  mkState (defaultFlags KubernetesAdapter) (Some (KubeIface "")) None
          (Some sampleMesh) 0.
Definition vmsReady : State :=
  mkState (defaultFlags VMsAdapter) None (Some (VmsCli "" "")) (Some sampleMesh) 0.

Definition sampleOptions : ControllerOptions :=
  mkControllerOptions "" 1000000000 "cluster.local".
Definition sampleTprClient : TprClient := TprCli "" routeAndPolicy "".
Definition sampleSources : list Controller :=
  [TprController sampleTprClient 1000000000;
   IngressController (Some (KubeIface "")) (Some sampleMesh) sampleOptions].

(** Two sources that both hold the key (route, default, r1). *)
Definition r1 : aggregate.ConfigKey := ("route", "default", "r1").
Definition payloadA : aggregate.ConfigObject := aggregate.mkObject "1" "from A".
Definition payloadB : aggregate.ConfigObject := aggregate.mkObject "7" "from B".
Definition sourceA : gmap aggregate.ConfigKey aggregate.ConfigObject := {[ r1 := payloadA ]}.
Definition sourceB : gmap aggregate.ConfigKey aggregate.ConfigObject := {[ r1 := payloadB ]}.

(** The contents of the controllers in a cluster where the TPR store and the
    ingress rules both define r1. *)
Definition sampleContents (c : Controller)
    : gmap aggregate.ConfigKey aggregate.ConfigObject :=
  match c with
  | TprController _ _ => sourceA
  | IngressController _ _ _ => sourceB
  | _ => ∅
  end.

(** ** Vocabulary for the properties of the remaining code *)

(** A flag left empty on the command line is read from the environment. *)
Definition orEnv (w : World) (v name : string) : string :=
  if decide (v = "") then Getenv w name else v.

(** The loops of each command, in the order of its [go] statements. *)
Definition loopsOf (c : Command) : list Loop :=
  match c with
  | discoveryCmd =>
      [ServiceControllerLoop; ConfigControllerLoop; DiscoveryLoop; IngressSyncerLoop]
  | sidecarCmd => [ServiceControllerLoop; ConfigControllerLoop; WatcherLoop]
  | ingressCmd | egressCmd => [WatcherLoop]
  | versionCmd => []
  end.

(** What a complete start-up of a command launches, given its stop channel. *)
Definition fullLaunch (c : Command) (stop : Chan) : list (Loop * option Chan) :=
  (fun l => (l, if decide (l = DiscoveryLoop) then None else Some stop)) <$> loopsOf c.

(** Further projections of a trace. *)
Definition meshRequests (t : list Event) : list (KubeInterface * string * string) :=
  omap (fun e => match e with EvGetMeshConfig c ns n => Some (c, ns, n) | _ => None end) t.
Definition printed (t : list Event) : list string :=
  omap (fun e => match e with EvPrint x => Some x | _ => None end) t.
Definition watchersRun (t : list Event) : list Watcher :=
  omap (fun e => match e with EvGoWatcher x _ => Some x | _ => None end) t.
Definition agentsBuilt (t : list Event) : list (option VmsClient * Identity) :=
  omap (fun e => match e with EvNewRegistrationAgent r i => Some (r, i) | _ => None end) t.

(** The events the hook can produce. *)
Definition hookEvent (e : Event) : bool :=
  match e with
  | EvInfof _ | EvCreateInterface _ | EvGetMeshConfig _ _ _ | EvVmsclientNew _ _ => true
  | _ => false
  end.

(** The mesh configuration an object is built from. *)
Definition meshSeen (e : Event) : option (option ProxyMeshConfig) :=
  match e with
  | EvNewController (KubeController _ m _) => Some m
  | EvNewController (IngressController _ m _) => Some m
  | EvNewController (VmsController _ m) => Some m
  | EvNewStatusSyncer (NewStatusSyncer m _ _) => Some m
  | EvNewDiscoveryService _ _ ctx => Some (MeshConfig ctx)
  | EvNewWatcher _ _ ctx => Some (MeshConfig ctx)
  | EvNewIngressWatcher m => Some m
  | EvNewEgressWatcher m => Some m
  | _ => None
  end.

(** * Theorems *)

(** Unfolding of the monad and of the projections of the state. *)
Ltac reduce :=
  cbv [mbind M_bind mret M_ret emit return_ panic get put getFlags setFlags
       setClient setVmsClient setMesh makeChan when goRun call
       flags client vmsClient mesh nextChan] in *.

(** A scrutinee that is an answer of the world, a decision or a variable:
    one with no [match] inside. *)
Ltac atomic x :=
  lazymatch x with
  | context [match _ with _ => _ end] => fail
  | _ => idtac
  end.

Ltac step :=
  match goal with
  | |- context [decide ?P] => destruct (decide P)
  | H : context [decide ?P] |- _ => destruct (decide P)
  | |- context [bool_decide ?P] => destruct (bool_decide_reflect P)
  | H : context [bool_decide ?P] |- _ => destruct (bool_decide_reflect P)
  | |- context [match ?x with _ => _ end] => atomic x; destruct x eqn:?
  | H : context [match ?x with _ => _ end] |- _ => atomic x; destruct x eqn:?
  end.

(** Symbolic execution of a command body: one goal per feasible path. *)
Ltac paths :=
  reduce; repeat (step; reduce; try congruence); simplify_eq/=.

(** Membership in an explicit trace. *)
Ltac mem := repeat first [apply list_elem_of_here | apply list_elem_of_further].

Ltac in_trace :=
  repeat match goal with
         | H : _ ∈ [] |- _ => by apply not_elem_of_nil in H
         | H : _ ∈ _ :: _ |- _ => apply elem_of_cons in H as [H|H]; simplify_eq/=
         end.

(** ** The concrete states are the ones the hook produces *)

Lemma hook_yields_kubeReady :
  PersistentPreRunE (failing []) (initial (defaultFlags KubernetesAdapter))
  = (Return None, kubeReady,
     [EvCreateInterface ""; EvInfof "version %s"; EvInfof "flags %s";
      EvGetMeshConfig (KubeIface "") "" "istio"; EvInfof "mesh configuration %s"]).
Proof. reflexivity. Qed.

Lemma hook_yields_vmsReady :
  PersistentPreRunE (failing []) (initial (defaultFlags VMsAdapter))
  = (Return None, vmsReady,
     [EvVmsclientNew "" ""; EvInfof "mesh configuration %s"]).
Proof. reflexivity. Qed.

(** The hook's answer does not depend on which later call fails. *)
Lemma hook_yields_kubeReady_tpr_fails :
  final (PersistentPreRunE (failing ["tpr.NewClient"])
                           (initial (defaultFlags KubernetesAdapter))) = kubeReady.
Proof. reflexivity. Qed.

(** ** Start-up failures *)

(** C1, evaluated at the failing input: the sidecar command under the
    Kubernetes adapter when tpr.NewClient fails.  The failure is detected,
    but the bare return yields the result parameter, which is nil: Execute
    returns nil, nothing is logged by main and the exit status is 0.  No
    loop is started.  The discovery command at the same input returns the
    error and main exits with -1. *)
Theorem sidecar_tpr_failure_returns_nil :
  let w := failing ["tpr.NewClient"] in
  let s := initial (defaultFlags KubernetesAdapter) in
  tpr_NewClient_err w "" "" = Some (Err "tpr.NewClient") /\
  outcome (sidecarRunE w kubeReady) = Return None /\
  outcome (Execute w sidecarCmd s) = Val None /\
  outcome (main w sidecarCmd s) = Val 0%Z /\
  errorsLogged (events (main w sidecarCmd s)) = [] /\
  launches (events (main w sidecarCmd s)) = [] /\
  outcome (main w discoveryCmd s) = Val (-1)%Z /\
  errorsLogged (events (main w discoveryCmd s)) =
    [Prefix (Err "tpr.NewClient") "failed to open a TPR client"].
Proof. repeat split; reflexivity. Qed.

(** In every world the Kubernetes branch of the sidecar command returns nil
    when tpr.NewClient fails. *)
Lemma sidecar_tpr_failure_nil (w : World) (s : State) (m : ProxyMeshConfig) (e : error) :
  mesh s = Some m ->
  adapter (flags s) = KubernetesAdapter ->
  tpr_NewClient_err w (kubeconfig (flags s)) (Namespace (controllerOptions (flags s)))
    = Some e ->
  outcome (sidecarRunE w s) = Return None.
Proof.
  unfold outcome, sidecarRunE. intros Hm Ha He.
  paths; congruence.
Qed.

(** A command that returns an error makes main log it and exit with -1. *)
Lemma main_reports_errors (w : World) (c : Command) (s : State) (e : error) :
  outcome (Execute w c s) = Val (Some e) ->
  outcome (main w c s) = Val (-1)%Z /\
  events (main w c s) = events (Execute w c s) ++ [EvError e; EvExit (-1)].
Proof.
  unfold outcome, events, main. cbv [mbind M_bind].
  destruct (Execute w c s) as [[[a|e'|p] s1] t1]; simpl; intros H; simplify_eq.
  done.
Qed.

(** A command that returns an error has launched no loop. *)
Lemma RunE_error_no_launch (w : World) (c : Command) (s : State) (e : error) :
  outcome (RunE w c s) = Return (Some e) ->
  launches (events (RunE w c s)) = [].
Proof.
  unfold outcome, events.
  destruct c; cbn [RunE]; unfold discoveryRunE, sidecarRunE,
    ingressRunE, egressRunE, versionRun; intros H.
  all: paths; done.
Qed.

(** C5: in the discovery command, when the aggregate.MakeCache call fails
    with an error, the adapter is Kubernetes, RunE returns exactly that
    error, the MakeCache call is the last thing the command did, the
    discovery service is never requested and no loop is launched. *)
Theorem discovery_MakeCache_failure (w : World) (s : State)
    (srcs : list Controller) (e : error) :
  EvMakeCache srcs ∈ events (discoveryRunE w s) ->
  MakeCache_err w srcs = Some e ->
  adapter (flags s) = KubernetesAdapter /\
  outcome (discoveryRunE w s) = Return (Some e) /\
  last (events (discoveryRunE w s)) = Some (EvMakeCache srcs) /\
  discoveryRequests (events (discoveryRunE w s)) = [] /\
  launches (events (discoveryRunE w s)) = [].
Proof.
  unfold events, outcome, discoveryRunE. intros Hin Herr.
  paths; in_trace; try congruence; done.
Qed.

Lemma discovery_MakeCache_failure_witness :
  let w := failing ["aggregate.MakeCache"] in
  EvMakeCache sampleSources ∈ events (discoveryRunE w kubeReady) /\
  MakeCache_err w sampleSources = Some (Err "aggregate.MakeCache") /\
  outcome (discoveryRunE w kubeReady) = Return (Some (Err "aggregate.MakeCache")) /\
  discoveryRequests (events (discoveryRunE w kubeReady)) = [] /\
  launches (events (discoveryRunE w kubeReady)) = [].
Proof.
  intros w.
  assert (H1 : EvMakeCache sampleSources ∈ events (discoveryRunE w kubeReady)).
  { apply list_elem_of_lookup. exists 5. reflexivity. }
  assert (H2 : MakeCache_err w sampleSources = Some (Err "aggregate.MakeCache"))
    by reflexivity.
  destruct (discovery_MakeCache_failure w kubeReady sampleSources _ H1 H2)
    as (_ & Ho & _ & Hd & Hl).
  repeat split; assumption.
Defined.

(** C8: in the discovery command under the Kubernetes adapter, whenever the
    config controller's Run is started, tprClient.RegisterResources was
    called before it and succeeded, no loop was launched before the
    registration, and the controller that runs is the aggregate whose first
    source is the TPR controller built on the registered client.  When the
    registration fails, RunE returns that error (prefixed) and no loop is
    launched. *)
Theorem registration_precedes_config_run (w : World) (s : State) :
  adapter (flags s) = KubernetesAdapter ->
  (forall c stop,
     EvGoConfigController c stop ∈ events (discoveryRunE w s) ->
     exists tc ic pre post,
       events (discoveryRunE w s) = pre ++ EvRegisterResources tc :: post /\
       RegisterResources_err w tc = None /\
       launches pre = [] /\
       c = Some (AggregateCache
                   [TprController tc (ResyncPeriod (controllerOptions (flags s))); ic]) /\
       EvGoConfigController c stop ∈ post) /\
  (forall tc e,
     EvRegisterResources tc ∈ events (discoveryRunE w s) ->
     RegisterResources_err w tc = Some e ->
     outcome (discoveryRunE w s)
       = Return (Some (Prefix e "failed to register Third-Party Resources.")) /\
     launches (events (discoveryRunE w s)) = []).
Proof.
  intros Ha. split.
  - intros c stop Hin. unfold events, discoveryRunE in *.
    paths; in_trace.
    eexists _, _, [_], _. simpl.
    split; [reflexivity|].
    split; [eassumption|].
    split; [reflexivity|].
    split; [reflexivity|].
    set_solver.
  - intros tc e Hin He. unfold events, outcome, discoveryRunE in *.
    paths; in_trace; try congruence; done.
Qed.

Lemma registration_precedes_config_run_witness :
  adapter (flags kubeReady) = KubernetesAdapter /\
  EvGoConfigController (Some (AggregateCache sampleSources)) 0
    ∈ events (discoveryRunE (failing []) kubeReady) /\
  (exists pre post,
     events (discoveryRunE (failing []) kubeReady)
       = pre ++ EvRegisterResources sampleTprClient :: post /\
     launches pre = []) /\
  EvRegisterResources sampleTprClient
    ∈ events (discoveryRunE (failing ["RegisterResources"]) kubeReady) /\
  launches (events (discoveryRunE (failing ["RegisterResources"]) kubeReady)) = [].
Proof.
  assert (Ha : adapter (flags kubeReady) = KubernetesAdapter) by reflexivity.
  assert (H1 : EvGoConfigController (Some (AggregateCache sampleSources)) 0
                 ∈ events (discoveryRunE (failing []) kubeReady)).
  { apply list_elem_of_lookup. exists 11. reflexivity. }
  assert (H2 : EvRegisterResources sampleTprClient
                 ∈ events (discoveryRunE (failing ["RegisterResources"]) kubeReady)).
  { apply list_elem_of_lookup. exists 1. reflexivity. }
  split; [exact Ha|]. split; [exact H1|].
  destruct (registration_precedes_config_run (failing []) kubeReady Ha) as [Hrun _].
  destruct (Hrun _ _ H1) as (tc & ic & pre & post & Heq & Hok & Hpre & Hc & _).
  assert (tc = sampleTprClient) by (injection Hc; auto).
  subst tc.
  split; [exists pre, post; split; assumption|].
  split; [exact H2|].
  destruct (registration_precedes_config_run (failing ["RegisterResources"]) kubeReady Ha)
    as [_ Hfail].
  exact (proj2 (Hfail sampleTprClient (Err "RegisterResources") H2 eq_refl)).
Defined.

(** ** The ingress status syncer *)

(** C2, evaluated at the failing input: the discovery command under the VMs
    adapter with every call succeeding.  Two status syncers are built, the
    first with the VMs client, the second with the (nil) Kubernetes client;
    the one whose Run is started is the second.  Under the Kubernetes
    adapter two syncers are built as well. *)
Theorem discovery_builds_two_syncers :
  let opts := controllerOptions (defaultFlags VMsAdapter) in
  let t := events (discoveryRunE (failing []) vmsReady) in
  syncersBuilt t =
    [NewStatusSyncer (Some sampleMesh) (VmsArg (Some (VmsCli "" ""))) opts;
     NewStatusSyncer (Some sampleMesh) (KubeArg None) opts] /\
  syncersRun t = [NewStatusSyncer (Some sampleMesh) (KubeArg None) opts] /\
  outcome (discoveryRunE (failing []) vmsReady) = Return None /\
  length (syncersBuilt (events (discoveryRunE (failing []) kubeReady))) = 2.
Proof. repeat split; reflexivity. Qed.

(** In every world, a status syncer that the discovery command runs is the
    one built on line 194 with the Kubernetes client, and under either
    adapter it is the second one built. *)
Lemma discovery_syncer_run (w : World) (s : State) (x : StatusSyncer) :
  x ∈ syncersRun (events (discoveryRunE w s)) ->
  x = NewStatusSyncer (mesh s) (KubeArg (client s)) (controllerOptions (flags s)) /\
  (adapter (flags s) = KubernetesAdapter \/ adapter (flags s) = VMsAdapter ->
   length (syncersBuilt (events (discoveryRunE w s))) = 2).
Proof.
  unfold events, discoveryRunE. intros Hin.
  paths; in_trace; split; try done; intros [?|?]; done.
Qed.

(** ** The stop channel *)

(** C3 as stated fails: in the discovery command under the Kubernetes
    adapter, every call succeeding, a loop is launched without the stop
    channel. *)
Lemma discovery_responder_gets_no_stop :
  ~ stop_reaches_every_loop (events (RunE (failing []) discoveryCmd kubeReady)).
Proof.
  intros (c & _ & H).
  assert (Hin : (DiscoveryLoop, None)
                  ∈ launches (events (RunE (failing []) discoveryCmd kubeReady))).
  { apply list_elem_of_lookup. exists 2. reflexivity. }
  specialize (H _ _ Hin). discriminate.
Qed.

(** C3, amended: in every command and every world, a run makes at most one
    stop channel, whether or not it goes on to launch a loop; every loop it
    launches is given that channel, except the discovery responder, whose
    Run is called without arguments; and cmd.WaitSignal is given the same
    channel. *)
Theorem one_stop_channel (w : World) (c : Command) (s : State) :
  (chansMade (events (RunE w c s)) = [] \/
   chansMade (events (RunE w c s)) = [nextChan s]) /\
  stop_reaches_every_loop_but_discovery (events (RunE w c s)) /\
  (forall stop, EvWaitSignal stop ∈ events (RunE w c s) ->
                chansMade (events (RunE w c s)) = [stop]).
Proof.
  unfold stop_reaches_every_loop_but_discovery, events.
  destruct c; cbn [RunE];
    unfold discoveryRunE, sidecarRunE, ingressRunE, egressRunE, versionRun.
  all: split; [|split; [intros l oc Hin | intros stop Hin]].
  all: paths; in_trace; try done.
  all: first [by left | by right | eexists; split; reflexivity].
Qed.

Lemma one_stop_channel_witness :
  EvWaitSignal 0 ∈ events (RunE (failing []) discoveryCmd kubeReady) /\
  chansMade (events (RunE (failing []) discoveryCmd kubeReady)) = [0] /\
  (chansMade (events (RunE (failing []) sidecarCmd kubeReady)) = [] \/
   chansMade (events (RunE (failing []) sidecarCmd kubeReady)) = [nextChan kubeReady]).
Proof.
  assert (H : EvWaitSignal 0 ∈ events (RunE (failing []) discoveryCmd kubeReady)).
  { apply list_elem_of_lookup. exists 14. reflexivity. }
  split; [exact H|]. split.
  - exact (proj2 (proj2 (one_stop_channel (failing []) discoveryCmd kubeReady)) 0 H).
  - exact (proj1 (one_stop_channel (failing []) sidecarCmd kubeReady)).
Defined.

(** The sidecar command under the Kubernetes adapter makes its stop channel
    and launches nothing: the bound on the channels of a run does not rest
    on a loop being launched. *)
Lemma sidecar_makes_one_channel_without_launch :
  chansMade (events (RunE (failing []) sidecarCmd kubeReady)) = [0] /\
  launches (events (RunE (failing []) sidecarCmd kubeReady)) = [].
Proof. split; reflexivity. Qed.

(** ** Nil controllers and nil mesh *)

(** C9 as stated fails: in the sidecar command under the Kubernetes adapter
    with every call succeeding, the go statement on the config controller is
    never reached. *)
Lemma sidecar_config_run_not_reached :
  ~ (watcher_built_with_nil (events (sidecarRunE (failing []) kubeReady)) /\
     runs_nil_controllers (events (sidecarRunE (failing []) kubeReady))).
Proof.
  intros (_ & _ & stop & H).
  apply list_elem_of_In in H. vm_compute in H.
  intuition discriminate.
Qed.

(** C9, amended: in the sidecar command under the Kubernetes adapter, when
    tpr.NewClient succeeds, the controllers built inside the branch are
    bound to block-local names: the context and the watcher are requested
    with nil service and config controllers.  When NewWatcher succeeds, the
    go statement on the nil service controller is reached and panics; the
    statement on the config controller is not reached and no loop is
    launched. *)
Theorem sidecar_kubernetes_nil_controllers (w : World) (s : State)
    (m : ProxyMeshConfig) :
  mesh s = Some m ->
  adapter (flags s) = KubernetesAdapter ->
  tpr_NewClient_err w (kubeconfig (flags s)) (Namespace (controllerOptions (flags s)))
    = None ->
  let m' := Some (mkMesh ProxyMeshConfig_OFF (meshBody m)) in
  let t := events (sidecarRunE w s) in
  EvNewController (KubeController (client s) m' (controllerOptions (flags s))) ∈ t /\
  watcher_built_with_nil t /\
  (forall sc cc ctx, EvNewWatcher sc cc ctx ∈ t ->
     sc = None /\ cc = None /\
     Discovery ctx = None /\ Accounts ctx = None /\ Config ctx = MakeIstioStore None /\
     (NewWatcher_err w sc cc ctx = None ->
        outcome (sidecarRunE w s) = Panic NilDereference /\
        last t = Some (EvGoServiceController None (nextChan s)) /\
        (forall c stop, EvGoConfigController c stop ∉ t) /\
        launches t = [])).
Proof.
  intros Hm Ha Htpr m' t. subst m' t.
  unfold watcher_built_with_nil, events, outcome, sidecarRunE.
  paths.
  all: split; [mem|].
  all: split; [eexists; split; [mem|done]|].
  all: intros sc cc ctx Hin; in_trace.
  all: repeat split; try done; try congruence.
  all: intros ? ? Hin; in_trace.
Qed.

Lemma sidecar_kubernetes_nil_controllers_witness :
  mesh kubeReady = Some sampleMesh /\
  adapter (flags kubeReady) = KubernetesAdapter /\
  tpr_NewClient_err (failing []) "" "" = None /\
  watcher_built_with_nil (events (sidecarRunE (failing []) kubeReady)) /\
  outcome (sidecarRunE (failing []) kubeReady) = Panic NilDereference /\
  launches (events (sidecarRunE (failing []) kubeReady)) = [].
Proof.
  destruct (sidecar_kubernetes_nil_controllers
              (failing []) kubeReady sampleMesh eq_refl eq_refl eq_refl)
    as (_ & Hnil & Hrun).
  destruct Hnil as (ctx & Hin & HD & HA & HC).
  destruct (Hrun None None ctx Hin) as (_ & _ & _ & _ & _ & Hpanic).
  destruct (Hpanic eq_refl) as (Ho & _ & _ & Hl).
  repeat split; try assumption.
  exists ctx. repeat split; assumption.
Defined.

(** C10: the hook turns an empty adapter flag into the Kubernetes adapter
    and then behaves as with that flag.  With an adapter flag that is not
    empty, not "Kubernetes" and not "VMs", the hook returns nil and leaves
    the flags, client, vmsClient and mesh as they were, only logging the
    mesh; started from the zero package state, the commands then run with a
    nil mesh: the sidecar command panics on its first statement, and the
    whole run crashes before anything else happens. *)
Theorem hook_accepts_unknown_adapter (w : World) (s : State) :
  (adapter (flags s) = "" ->
     adapter (flags (final (PersistentPreRunE w s))) = KubernetesAdapter) /\
  (adapter (flags s) <> "" ->
   adapter (flags s) <> KubernetesAdapter ->
   adapter (flags s) <> VMsAdapter ->
     outcome (PersistentPreRunE w s) = Return None /\
     final (PersistentPreRunE w s) = s /\
     events (PersistentPreRunE w s) = [EvInfof "mesh configuration %s"] /\
     (mesh s = None ->
        outcome (sidecarRunE w s) = Panic NilDereference /\
        events (sidecarRunE w s) = [] /\
        outcome (Execute w sidecarCmd s) = Panic NilDereference)).
Proof.
  split.
  - intros He. unfold final, PersistentPreRunE. paths; done.
  - intros H0 H1 H2.
    unfold outcome, final, events, Execute. cbn [RunE].
    unfold sidecarRunE, PersistentPreRunE.
    paths; done.
Qed.

Lemma hook_accepts_unknown_adapter_witness :
  adapter (flags (final (PersistentPreRunE (failing []) (initial (defaultFlags "")))))
    = KubernetesAdapter /\
  outcome (PersistentPreRunE (failing []) (initial (defaultFlags "Eureka")))
    = Return None /\
  mesh (final (PersistentPreRunE (failing []) (initial (defaultFlags "Eureka")))) = None /\
  outcome (Execute (failing []) sidecarCmd (initial (defaultFlags "Eureka")))
    = Panic NilDereference.
Proof.
  destruct (hook_accepts_unknown_adapter (failing []) (initial (defaultFlags "")))
    as [H1 _].
  destruct (hook_accepts_unknown_adapter (failing []) (initial (defaultFlags "Eureka")))
    as [_ H2].
  split; [apply H1; reflexivity|].
  destruct H2 as (Ho & Hf & _ & Hp); [discriminate..|].
  split; [exact Ho|].
  split; [rewrite Hf; reflexivity|].
  exact (proj2 (proj2 (Hp eq_refl))).
Defined.

(** ** Launch order and shutdown *)

Lemma advance_keeps_launched (l : Loop) (st : LoopSt) (x : Step) :
  phase st <> Created -> phase (advance l st x) <> Created.
Proof.
  unfold advance. destruct st as [[] oc]; simpl; intros H; try done.
  all: destruct x as [[]| |]; simpl; try done.
  all: repeat case_decide; simpl; done.
Qed.

Lemma advance_launches (l : Loop) (st : LoopSt) (e : Event) (c : option Chan) :
  launched e = Some (l, c) -> phase (advance l st (MainStep e)) <> Created.
Proof.
  intros He. destruct (decide (phase st = Created)) as [Hc|Hc].
  - unfold advance. rewrite Hc, He. rewrite decide_True by done. done.
  - by apply advance_keeps_launched.
Qed.

Lemma mainSteps_uninterrupted (t : list Event) : mainSteps (uninterrupted t) = t.
Proof.
  unfold mainSteps, uninterrupted. induction t as [|e t IH]; simpl; [done|].
  f_equal. exact IH.
Qed.

(** The program-order check implies the property of every schedule. *)
Lemma launch_order_sound (pre : list Step) :
  forall (sched : list Step) (seen : list Loop) (stS stC : LoopSt)
         (e : Event) (post : list Step) (l : Loop) (c : option Chan),
    launch_order_ok seen (mainSteps sched) = true ->
    (ServiceControllerLoop ∈ seen -> phase stS <> Created) ->
    (ConfigControllerLoop ∈ seen -> phase stC <> Created) ->
    sched = pre ++ MainStep e :: post ->
    launched e = Some (l, c) -> isConsumer l = true ->
    phase (fold_left (advance ServiceControllerLoop) pre stS) <> Created /\
    phase (fold_left (advance ConfigControllerLoop) pre stC) <> Created.
Proof.
  induction pre as [|x pre IH]; intros sched seen stS stC e post l c Hok HS HC -> He Hl.
  - simpl in *. rewrite He, Hl in Hok.
    apply andb_prop in Hok as [Hb _]. apply bool_decide_eq_true in Hb as [? ?].
    auto.
  - simpl. destruct x as [e0|l0|l0].
    + simpl in Hok.
      destruct (launched e0) as [[l0 c0]|] eqn:He0.
      * apply andb_prop in Hok as [_ Hok].
        eapply (IH _ (l0 :: seen)); [exact Hok| | |reflexivity|exact He|exact Hl].
        -- intros Hin. apply elem_of_cons in Hin as [<-|Hin].
           ++ by eapply advance_launches.
           ++ by apply advance_keeps_launched, HS.
        -- intros Hin. apply elem_of_cons in Hin as [<-|Hin].
           ++ by eapply advance_launches.
           ++ by apply advance_keeps_launched, HC.
      * eapply (IH _ seen); [exact Hok| | |reflexivity|exact He|exact Hl].
        -- intros Hin. by apply advance_keeps_launched, HS.
        -- intros Hin. by apply advance_keeps_launched, HC.
    + simpl in Hok.
      eapply (IH _ seen); [exact Hok| | |reflexivity|exact He|exact Hl].
      * intros Hin. by apply advance_keeps_launched, HS.
      * intros Hin. by apply advance_keeps_launched, HC.
    + simpl in Hok.
      eapply (IH _ seen); [exact Hok| | |reflexivity|exact He|exact Hl].
      * intros Hin. by apply advance_keeps_launched, HS.
      * intros Hin. by apply advance_keeps_launched, HC.
Qed.

(** Without steps of its own goroutine a loop gets no further than
    [Starting]. *)
Lemma uninterrupted_never_syncs (l : Loop) (t : list Event) (st : LoopSt) :
  phase st = Created \/ phase st = Starting ->
  let st' := fold_left (advance l) (uninterrupted t) st in
  phase st' = Created \/ phase st' = Starting.
Proof.
  revert st. induction t as [|e t IH]; intros st Hst; simpl; [done|].
  apply IH. unfold advance. destruct st as [ph oc]; simpl in *.
  destruct Hst as [-> | ->]; [|auto].
  destruct (launched e) as [[l' c]|]; [case_decide|]; simpl; auto.
Qed.

(** C4 as stated fails: in the discovery command (VMs adapter, every call
    succeeding) there is a schedule, the one in which the main goroutine
    runs on without interruption, where the discovery responder is launched
    while the service controller loop is only Starting. *)
Lemma consumers_do_not_wait_for_running :
  ~ (forall sched,
       schedule_of (events (RunE (failing []) discoveryCmd vmsReady)) sched ->
       consumers_wait_for_running sched).
Proof.
  intros H.
  set (sched := uninterrupted (events (RunE (failing []) discoveryCmd vmsReady))).
  specialize (H sched (mainSteps_uninterrupted _)).
  assert (exists d, sched !! 7 = Some (MainStep (EvGoDiscovery d))) as [d Hd]
    by (eexists; reflexivity).
  pose proof (take_drop_middle _ _ _ Hd) as Hmid.
  destruct (H (take 7 sched) _ (drop 8 sched) DiscoveryLoop None
              (eq_sym Hmid) eq_refl eq_refl) as [HS _].
  vm_compute in HS. discriminate HS.
Qed.

Lemma RunE_launch_order (w : World) (c : Command) (s : State) :
  c = discoveryCmd \/ c = sidecarCmd ->
  launch_order_ok [] (events (RunE w c s)) = true.
Proof.
  unfold events. intros [-> | ->]; cbn [RunE]; unfold discoveryRunE, sidecarRunE.
  all: paths; done.
Qed.

(** C4, amended: in the discovery and sidecar commands, in every world and
    under every schedule, when a consumer loop (discovery responder,
    watcher, ingress status syncer) is launched, the service controller and
    config controller loops have been launched, that is they are past
    Created; the code does not wait for them to be Running. *)
Theorem consumers_launched_after_sources (w : World) (c : Command) (s : State)
    (sched : list Step) :
  c = discoveryCmd \/ c = sidecarCmd ->
  schedule_of (events (RunE w c s)) sched ->
  consumers_follow_launch sched.
Proof.
  intros Hc Hsched pre e post l oc Heq He Hl.
  unfold lifecycle.
  eapply (launch_order_sound pre sched []); try eassumption.
  - rewrite Hsched. by apply RunE_launch_order.
  - intros Hin. by apply not_elem_of_nil in Hin.
  - intros Hin. by apply not_elem_of_nil in Hin.
Qed.

Lemma consumers_launched_after_sources_witness :
  schedule_of (events (RunE (failing []) discoveryCmd kubeReady))
              (uninterrupted (events (RunE (failing []) discoveryCmd kubeReady))) /\
  consumers_follow_launch
    (uninterrupted (events (RunE (failing []) discoveryCmd kubeReady))).
Proof.
  split; [apply mainSteps_uninterrupted|].
  apply (consumers_launched_after_sources (failing []) discoveryCmd kubeReady).
  - left. reflexivity.
  - apply mainSteps_uninterrupted.
Defined.

(** C7 as stated fails: in the discovery command (VMs adapter, every call
    succeeding) there is a schedule at whose end the service controller
    loop has been launched and is not Stopped. *)
Lemma loops_are_not_joined :
  ~ (forall sched,
       schedule_of (events (RunE (failing []) discoveryCmd vmsReady)) sched ->
       all_joined sched).
Proof.
  intros H.
  specialize (H _ (mainSteps_uninterrupted _) ServiceControllerLoop).
  vm_compute in H. assert (Starting = Stopped) by (apply H; discriminate).
  discriminate.
Qed.

(** C7, amended: in every command and every world, cmd.WaitSignal(stop) is
    the last thing the main goroutine does and RunE then returns nil; the
    loops were launched by go statements before it and nothing joins them:
    in the schedule where the main goroutine runs on without interruption no
    loop is Stopped when the command returns. *)
Theorem WaitSignal_then_return (w : World) (c : Command) (s : State) (stop : Chan) :
  EvWaitSignal stop ∈ events (RunE w c s) ->
  last (events (RunE w c s)) = Some (EvWaitSignal stop) /\
  outcome (RunE w c s) = Return None /\
  schedule_of (events (RunE w c s)) (uninterrupted (events (RunE w c s))) /\
  forall l, phase (lifecycle l (uninterrupted (events (RunE w c s)))) <> Stopped.
Proof.
  intros Hin.
  assert (last (events (RunE w c s)) = Some (EvWaitSignal stop) /\
          outcome (RunE w c s) = Return None) as [H1 H2].
  { revert Hin. unfold events, outcome.
    destruct c; cbn [RunE];
      unfold discoveryRunE, sidecarRunE, ingressRunE, egressRunE, versionRun;
      intros Hin; paths; in_trace; done. }
  repeat split; [exact H1|exact H2|apply mainSteps_uninterrupted|].
  intros l Hl.
  destruct (uninterrupted_never_syncs l (events (RunE w c s)) (mkLoopSt Created None))
    as [H|H]; [by left| |]; unfold lifecycle in Hl; congruence.
Qed.

Lemma WaitSignal_then_return_witness :
  EvWaitSignal 0 ∈ events (RunE (failing []) sidecarCmd vmsReady) /\
  outcome (RunE (failing []) sidecarCmd vmsReady) = Return None.
Proof.
  assert (H : EvWaitSignal 0 ∈ events (RunE (failing []) sidecarCmd vmsReady)).
  { apply list_elem_of_lookup. exists 9. reflexivity. }
  split; [exact H|].
  exact (proj1 (proj2 (WaitSignal_then_return (failing []) sidecarCmd vmsReady 0 H))).
Defined.

(** ** The aggregate cache *)

Section aggregate_facts.
Import aggregate.
Implicit Types (seen : gmap ConfigKey ConfigObject)
               (srcs : list (gmap ConfigKey ConfigObject))
               (k : ConfigKey) (a b o : ConfigObject).

(** What earlier sources claimed stays in the index. *)
Lemma mergeFrom_keeps_seen srcs : forall i seen k a,
  seen !! k = Some a -> index (mergeFrom i seen srcs) !! k = Some a.
Proof.
  induction srcs as [|s rest IH]; intros i seen k a Hk; simpl; [done|].
  apply IH. by apply lookup_union_Some_l.
Qed.

(** The first source that claims a key provides its object. *)
Lemma mergeFrom_first_claim srcs : forall i seen n A k a,
  seen !! k = None ->
  srcs !! n = Some A -> A !! k = Some a ->
  (forall n' A', n' < n -> srcs !! n' = Some A' -> A' !! k = None) ->
  index (mergeFrom i seen srcs) !! k = Some a.
Proof.
  induction srcs as [|s rest IH]; intros i seen n A k a Hseen Hn Ha Hfirst;
    [done|].
  destruct n as [|n]; simpl in *.
  - simplify_eq. apply mergeFrom_keeps_seen.
    rewrite lookup_union_r; done.
  - assert (s !! k = None) as Hs by (apply (Hfirst 0); [lia|done]).
    apply (IH _ _ n A); try done.
    + by apply lookup_union_None.
    + intros n' A' Hlt HA'. apply (Hfirst (S n')); [lia|done].
Qed.

(** A source that claims a key already claimed is reported. *)
Lemma mergeFrom_reports_seen srcs : forall i seen n B k b,
  is_Some (seen !! k) ->
  srcs !! n = Some B -> B !! k = Some b ->
  ConflictDetected k (i + n) b ∈ conflicts (mergeFrom i seen srcs).
Proof.
  induction srcs as [|s rest IH]; intros i seen n B k b Hseen Hn Hb; [done|].
  destruct n as [|n]; simpl in *; apply elem_of_app.
  - simplify_eq. left. apply list_elem_of_fmap. exists (k, b). split.
    + by rewrite Nat.add_0_r.
    + apply elem_of_map_to_list. by apply map_lookup_filter_Some.
  - right. replace (i + S n) with (S i + n) by lia.
    apply (IH _ _ _ B); try done.
    destruct Hseen as [x Hx]. exists x. by apply lookup_union_Some_l.
Qed.

Lemma mergeFrom_reports_later srcs : forall i seen n1 n2 A B k a b,
  n1 < n2 ->
  srcs !! n1 = Some A -> A !! k = Some a ->
  srcs !! n2 = Some B -> B !! k = Some b ->
  ConflictDetected k (i + n2) b ∈ conflicts (mergeFrom i seen srcs).
Proof.
  induction srcs as [|s rest IH]; intros i seen n1 n2 A B k a b Hlt H1 Ha H2 Hb;
    [done|].
  destruct n2 as [|n2]; [lia|].
  simpl in *. apply elem_of_app. right.
  replace (i + S n2) with (S i + n2) by lia.
  destruct n1 as [|n1]; simpl in *.
  - simplify_eq. apply (mergeFrom_reports_seen rest (S i) (seen ∪ A) n2 B); try done.
    destruct (seen !! k) as [x|] eqn:Hx.
    + exists x. by apply lookup_union_Some_l.
    + exists a. rewrite lookup_union_r; done.
  - apply (IH (S i) (seen ∪ s) n1 n2 A B k a b); try done. lia.
Qed.

(** A key already claimed is not listed again. *)
Lemma listFrom_skips_seen srcs : forall seen kind k o,
  is_Some (seen !! k) -> (k, o) ∉ listFrom seen srcs kind.
Proof.
  induction srcs as [|s rest IH]; intros seen kind k o Hseen Hin; simpl in *.
  - by apply not_elem_of_nil in Hin.
  - apply elem_of_app in Hin as [Hin|Hin].
    + apply elem_of_map_to_list, map_lookup_filter_Some in Hin as [_ [_ Hnone]].
      simpl in Hnone. destruct Hseen as [x Hx]. congruence.
    + apply (IH (seen ∪ s) kind k o); [|done].
      destruct Hseen as [x Hx]. exists x. by apply lookup_union_Some_l.
Qed.

(** The list holds, for a key, the object of its first claimant only. *)
Lemma listFrom_first_claim srcs : forall seen n A k a,
  seen !! k = None ->
  srcs !! n = Some A -> A !! k = Some a ->
  (forall n' A', n' < n -> srcs !! n' = Some A' -> A' !! k = None) ->
  forall o, (k, o) ∈ listFrom seen srcs (kindOf k) <-> o = a.
Proof.
  induction srcs as [|s rest IH]; intros seen n A k a Hseen Hn Ha Hfirst o;
    [done|].
  destruct n as [|n]; simpl in *.
  - simplify_eq. rewrite elem_of_app. split.
    + intros [Hin|Hin].
      * apply elem_of_map_to_list, map_lookup_filter_Some in Hin as [Hin _].
        congruence.
      * exfalso. apply (listFrom_skips_seen rest (seen ∪ A) (kindOf k) k o); [|done].
        exists a. rewrite lookup_union_r; done.
    + intros ->. left.
      apply elem_of_map_to_list, map_lookup_filter_Some. done.
  - assert (s !! k = None) as Hs by (apply (Hfirst 0); [lia|done]).
    rewrite elem_of_app. split.
    + intros [Hin|Hin].
      * apply elem_of_map_to_list, map_lookup_filter_Some in Hin as [Hin _].
        congruence.
      * eapply (IH (seen ∪ s) n A k a); try done.
        -- by apply lookup_union_None.
        -- intros n' A' Hlt HA'. apply (Hfirst (S n')); [lia|done].
    + intros ->. right.
      eapply (IH (seen ∪ s) n A k a); try done.
      * by apply lookup_union_None.
      * intros n' A' Hlt HA'. apply (Hfirst (S n')); [lia|done].
Qed.

End aggregate_facts.

(** The discovery command registers, in this order, the TPR controller and
    the ingress controller. *)
Lemma discovery_registers_tpr_first (w : World) (s : State) (regs : list Controller) :
  regs ∈ registered (events (discoveryRunE w s)) ->
  exists tc r c m o, regs = [TprController tc r; IngressController c m o].
Proof.
  unfold events, discoveryRunE. intros Hin.
  paths; in_trace; by eexists _, _, _, _, _.
Qed.

(** C6: when two registered sources claim one key and the earlier of them is
    the first source to claim it, Get returns the earlier source's object,
    List holds for that key exactly that object, and the later source's
    object is reported as a conflict.  The discovery command registers the
    TPR controller first and the ingress controller second, so for a key
    both hold, the TPR object is the one in the merged view and the ingress
    object is reported. *)
Theorem first_registered_source_wins :
  (forall (srcs : list (gmap aggregate.ConfigKey aggregate.ConfigObject))
          (i j : nat) (A B : gmap aggregate.ConfigKey aggregate.ConfigObject)
          (k : aggregate.ConfigKey) (a b : aggregate.ConfigObject),
     i < j -> srcs !! i = Some A -> srcs !! j = Some B ->
     A !! k = Some a -> B !! k = Some b ->
     (forall i' A', i' < i -> srcs !! i' = Some A' -> A' !! k = None) ->
     aggregate.Get srcs k = Some a /\
     (forall o, (k, o) ∈ aggregate.List srcs (aggregate.kindOf k) <-> o = a) /\
     aggregate.ConflictDetected k j b ∈ aggregate.conflicts (aggregate.MakeCache srcs)) /\
  (forall (w : World) (s : State) (regs : list Controller)
          (contents : Controller -> gmap aggregate.ConfigKey aggregate.ConfigObject)
          (k : aggregate.ConfigKey) (a b : aggregate.ConfigObject),
     regs ∈ registered (events (discoveryRunE w s)) ->
     exists tc r c m o,
       regs = [TprController tc r; IngressController c m o] /\
       (contents (TprController tc r) !! k = Some a ->
        contents (IngressController c m o) !! k = Some b ->
        aggregate.Get (contents <$> regs) k = Some a /\
        (forall x, (k, x) ∈ aggregate.List (contents <$> regs) (aggregate.kindOf k)
                   <-> x = a) /\
        aggregate.ConflictDetected k 1 b
          ∈ aggregate.conflicts (aggregate.MakeCache (contents <$> regs)))).
Proof.
  assert (Hgen : forall srcs i j A B k a b,
     i < j -> srcs !! i = Some A -> srcs !! j = Some B ->
     A !! k = Some a -> B !! k = Some b ->
     (forall i' A', i' < i -> srcs !! i' = Some A' -> A' !! k = None) ->
     aggregate.Get srcs k = Some a /\
     (forall o, (k, o) ∈ aggregate.List srcs (aggregate.kindOf k) <-> o = a) /\
     aggregate.ConflictDetected k j b ∈ aggregate.conflicts (aggregate.MakeCache srcs)).
  { intros srcs i j A B k a b Hlt Hi Hj Ha Hb Hfirst.
    unfold aggregate.Get, aggregate.List, aggregate.MakeCache. repeat split.
    - by apply (mergeFrom_first_claim srcs 0 ∅ i A).
    - by apply (listFrom_first_claim srcs ∅ i A).
    - intros ->. by apply (listFrom_first_claim srcs ∅ i A k a).
    - by apply (mergeFrom_reports_later srcs 0 ∅ i j A B k a b). }
  split; [exact Hgen|].
  intros w s regs contents k a b Hin.
  destruct (discovery_registers_tpr_first w s regs Hin) as (tc & r & c & m & o & ->).
  exists tc, r, c, m, o. split; [done|]. intros Ha Hb.
  apply (Hgen _ 0 1 (contents (TprController tc r)) (contents (IngressController c m o)));
    try done; [lia|].
  intros i' A' Hlt. lia.
Qed.

Lemma first_registered_source_wins_witness :
  0 < 1 /\ [sourceA; sourceB] !! 0 = Some sourceA /\ [sourceA; sourceB] !! 1 = Some sourceB /\
  sourceA !! r1 = Some payloadA /\ sourceB !! r1 = Some payloadB /\
  aggregate.Get [sourceA; sourceB] r1 = Some payloadA /\
  aggregate.ConflictDetected r1 1 payloadB
    ∈ aggregate.conflicts (aggregate.MakeCache [sourceA; sourceB]) /\
  sampleSources ∈ registered (events (discoveryRunE (failing []) kubeReady)) /\
  aggregate.Get (sampleContents <$> sampleSources) r1 = Some payloadA.
Proof.
  assert (HA : sourceA !! r1 = Some payloadA) by apply lookup_singleton_eq.
  assert (HB : sourceB !! r1 = Some payloadB) by apply lookup_singleton_eq.
  assert (Hlt : 0 < 1) by lia.
  assert (Hfirst : forall i' (A' : gmap aggregate.ConfigKey aggregate.ConfigObject),
            i' < 0 -> [sourceA; sourceB] !! i' = Some A' -> A' !! r1 = None)
    by (intros i' A' Hi; lia).
  destruct first_registered_source_wins as [Hgen Hdisc].
  destruct (Hgen [sourceA; sourceB] 0 1 sourceA sourceB r1 payloadA payloadB
              Hlt eq_refl eq_refl HA HB Hfirst) as (Hget & _ & Hconf).
  assert (Hreg : sampleSources ∈ registered (events (discoveryRunE (failing []) kubeReady))).
  { apply list_elem_of_lookup. exists 0. reflexivity. }
  destruct (Hdisc (failing []) kubeReady sampleSources sampleContents r1 payloadA payloadB Hreg)
    as (tc & r & c & m & o & Heq & Hwin).
  injection Heq as <- <- <- <- <-.
  destruct (Hwin HA HB) as (Hget' & _ & _).
  repeat split; assumption.
Defined.

(** * Further properties of main.go *)

(** Running a computation once and exploring its paths.  The run is named
    and the statement about it is set aside while the paths are explored,
    so that a statement mentioning the run several times is explored
    once. *)
Ltac explore m :=
  let r := fresh "r" in
  let s' := fresh "s'" in
  let t := fresh "t" in
  let H := fresh "Hrun" in
  let Q := fresh "Q" in
  unfold outcome, final, events;
  destruct m as [[r s'] t] eqn:H; cbn [fst snd];
  pattern r, s', t;
  match goal with |- ?P r s' t => set (Q := P) end;
  revert H;
  unfold KubernetesAdapter, VMsAdapter in *;
  cbv [RunE PersistentPreRunE discoveryRunE sidecarRunE ingressRunE egressRunE versionRun
       KubernetesAdapter VMsAdapter];
  paths; intros H; simplify_eq/=; subst Q; cbv beta; simpl.

(** The same for the hook, whose paths are all feasible: no pruning. *)
Ltac explore_hook m :=
  let r := fresh "r" in
  let s' := fresh "s'" in
  let t := fresh "t" in
  let H := fresh "Hrun" in
  let Q := fresh "Q" in
  unfold outcome, final, events;
  destruct m as [[r s'] t] eqn:H; cbn [fst snd];
  pattern r, s', t;
  match goal with |- ?P r s' t => set (Q := P) end;
  revert H;
  unfold KubernetesAdapter, VMsAdapter in *;
  cbv [PersistentPreRunE KubernetesAdapter VMsAdapter];
  reduce; repeat (step; reduce);
  intros H; injection H as <- <- <-; subst Q; cbv beta;
  cbn [set_adapter set_kubeconfig set_ipAddress set_podName set_Namespace
       kubeconfig meshConfig ipAddress podName passthrough controllerOptions
       discoveryOptions adapter vmsArgs Namespace ResyncPeriod DomainSuffix] in *;
  simpl; simplify_eq.

Ltac explore_cmd :=
  match goal with |- context [RunE ?w0 ?c ?s0] => explore (RunE w0 c s0) end.

Ltac stable :=
  repeat match goal with H : ~ (_ <> _) |- _ => apply dec_stable in H end.

(** ** The hook *)

(** The hook always returns; it only logs and calls CreateInterface,
    GetMeshConfig and vmsclient.New; after a nil return under a known
    adapter the mesh is set. *)
Lemma hook_facts (w : World) (s : State) :
  exists r, outcome (PersistentPreRunE w s) = Return r /\
    forallb hookEvent (events (PersistentPreRunE w s)) = true /\
    nextChan (final (PersistentPreRunE w s)) = nextChan s /\
    (r = None ->
       (adapter (flags s) = "" \/ adapter (flags s) = KubernetesAdapter ->
          adapter (flags (final (PersistentPreRunE w s))) = KubernetesAdapter /\
          is_Some (mesh (final (PersistentPreRunE w s)))) /\
       (adapter (flags s) = VMsAdapter ->
          flags (final (PersistentPreRunE w s)) = flags s /\
          client (final (PersistentPreRunE w s)) = client s /\
          mesh (final (PersistentPreRunE w s)) = Some (DefaultMeshConfig w))).
Proof.
  explore_hook (PersistentPreRunE w s).
  all: eexists; split; [reflexivity|split; [reflexivity|split; [reflexivity|]]].
  all: intros Hr; simplify_eq; split; intros Ha.
  all: try (destruct Ha; congruence); try (exfalso; congruence).
  all: try done; split; try done; by eexists.
Qed.

Lemma hookEvent_projections (t : list Event) :
  forallb hookEvent t = true ->
  launches t = [] /\ chansMade t = [] /\ printed t = [] /\ watchersRun t = [] /\
  errorsLogged t = [].
Proof.
  induction t as [|e t IH]; simpl; [done|].
  intros H. apply andb_prop in H as [He Ht].
  destruct (IH Ht) as (H1 & H2 & H3 & H4 & H5).
  unfold launches, chansMade, printed, watchersRun, errorsLogged in *. simpl.
  destruct e; simpl in *; try discriminate; rewrite ?H1, ?H2, ?H3, ?H4, ?H5; done.
Qed.

Lemma Execute_hook_fails (w : World) (c : Command) (s s1 : State)
    (t1 : list Event) (e : error) :
  PersistentPreRunE w s = (Return (Some e), s1, t1) ->
  Execute w c s = (Val (Some e), s1, t1 ++ []).
Proof.
  intros H. unfold Execute, call. cbv [mbind M_bind mret M_ret]. rewrite H. reflexivity.
Qed.

Lemma Execute_hook_ok (w : World) (c : Command) (s s1 : State) (t1 : list Event) :
  PersistentPreRunE w s = (Return None, s1, t1) ->
  Execute w c s =
    (outcome (call (RunE w c) s1), final (call (RunE w c) s1),
     t1 ++ events (call (RunE w c) s1)).
Proof.
  intros H. unfold Execute. cbv [mbind M_bind mret M_ret].
  unfold call at 1. rewrite H.
  destruct (call (RunE w c) s1) as [[r s2] t2]. reflexivity.
Qed.

Lemma call_outcome {A} (m : M A) (s : State) (p : PanicValue) :
  outcome (call m s) = Panic p -> outcome (m s) = Panic p.
Proof.
  unfold call, outcome. destruct (m s) as [[[a|e|q] s1] t]; simpl; congruence.
Qed.

(** X1.  Under the Kubernetes adapter (the flag empty or "Kubernetes"),
    after a hook that returned nil, each of kubeconfig, ipAddress, podName
    and namespace holds its command-line value if that was not empty and
    the value of KUBECONFIG, POD_IP, POD_NAME, POD_NAMESPACE otherwise; the
    adapter is "Kubernetes" and every other flag is as given. *)
Theorem hook_env_fallbacks (w : World) (s : State) :
  adapter (flags s) = "" \/ adapter (flags s) = KubernetesAdapter ->
  outcome (PersistentPreRunE w s) = Return None ->
  let f := flags s in
  let f' := flags (final (PersistentPreRunE w s)) in
  kubeconfig f' = orEnv w (kubeconfig f) "KUBECONFIG" /\
  ipAddress f' = orEnv w (ipAddress f) "POD_IP" /\
  podName f' = orEnv w (podName f) "POD_NAME" /\
  Namespace (controllerOptions f')
    = orEnv w (Namespace (controllerOptions f)) "POD_NAMESPACE" /\
  adapter f' = KubernetesAdapter /\
  meshConfig f' = meshConfig f /\ passthrough f' = passthrough f /\
  ResyncPeriod (controllerOptions f') = ResyncPeriod (controllerOptions f) /\
  DomainSuffix (controllerOptions f') = DomainSuffix (controllerOptions f) /\
  discoveryOptions f' = discoveryOptions f /\ vmsArgs f' = vmsArgs f.
Proof.
  intros Ha Ho f f'. subst f f'. revert Ho.
  explore_hook (PersistentPreRunE w s); intros Ho; simplify_eq.
  all: try (destruct Ha; congruence).
  all: unfold orEnv; stable; repeat split; try reflexivity.
  all: try case_decide; congruence.
Qed.

Lemma hook_env_fallbacks_witness :
  let w := mkWorld (fun n => if decide (n = "POD_NAME") then "pilot-0" else "")
             (fun _ => None) (fun _ _ _ => inr sampleMesh) sampleMesh
             (fun _ _ => None) (fun _ _ => None) (fun _ => None) (fun _ => None)
             (fun _ _ _ => None) (fun _ _ _ => None) (fun _ => None) (fun _ => None)
             (fun _ _ => None) (fun _ => None) (fun _ => None) "version" in
  let s := initial (set_ipAddress "10.0.0.7" (defaultFlags "")) in
  (adapter (flags s) = "" \/ adapter (flags s) = KubernetesAdapter) /\
  outcome (PersistentPreRunE w s) = Return None /\
  ipAddress (flags (final (PersistentPreRunE w s))) = "10.0.0.7" /\
  podName (flags (final (PersistentPreRunE w s))) = "pilot-0".
Proof.
  intros w s.
  assert (Ha : adapter (flags s) = "" \/ adapter (flags s) = KubernetesAdapter)
    by (left; reflexivity).
  assert (Ho : outcome (PersistentPreRunE w s) = Return None) by reflexivity.
  destruct (hook_env_fallbacks w s Ha Ho) as (_ & Hip & Hpod & _).
  split; [exact Ha|]. split; [exact Ho|].
  split; [rewrite Hip|rewrite Hpod]; reflexivity.
Defined.

(** X2.  After a hook that returned nil: under the Kubernetes adapter the
    client is the one opened with the resolved kubeconfig, the mesh is what
    GetMeshConfig answered for that client, the resolved namespace and the
    meshConfig flag, and vmsClient is untouched; under the VMs adapter
    vmsClient is the client made from serverURL and authToken, the mesh is
    the default mesh configuration, and the flags and the Kubernetes client
    are untouched. *)
Theorem hook_success_state (w : World) (s : State) :
  outcome (PersistentPreRunE w s) = Return None ->
  let f := flags s in
  let s' := final (PersistentPreRunE w s) in
  let kc := orEnv w (kubeconfig f) "KUBECONFIG" in
  let ns := orEnv w (Namespace (controllerOptions f)) "POD_NAMESPACE" in
  (adapter f = "" \/ adapter f = KubernetesAdapter ->
     client s' = Some (KubeIface kc) /\
     (exists m, mesh s' = Some m /\
                GetMeshConfig_res w (KubeIface kc) ns (meshConfig f) = inr m) /\
     vmsClient s' = vmsClient s) /\
  (adapter f = VMsAdapter ->
     vmsClient s' = Some (VmsCli (serverURL (vmsArgs f)) (authToken (vmsArgs f))) /\
     mesh s' = Some (DefaultMeshConfig w) /\
     client s' = client s /\ flags s' = f).
Proof.
  intros Ho f s' kc ns. subst f s' kc ns. revert Ho.
  explore_hook (PersistentPreRunE w s); intros Ho; simplify_eq.
  all: unfold orEnv; stable; split; intros Ha.
  all: try (destruct Ha; congruence); try (exfalso; congruence); try done.
  all: repeat case_decide; try congruence.
  all: split; [congruence|split; [eexists; split; [reflexivity|congruence]|reflexivity]].
Qed.

Lemma hook_success_state_witness :
  let s := initial (defaultFlags VMsAdapter) in
  outcome (PersistentPreRunE (failing []) s) = Return None /\
  adapter (flags s) = VMsAdapter /\
  vmsClient (final (PersistentPreRunE (failing []) s)) = Some (VmsCli "" "") /\
  client (final (PersistentPreRunE (failing []) s)) = None.
Proof.
  intros s.
  assert (Ho : outcome (PersistentPreRunE (failing []) s) = Return None) by reflexivity.
  assert (Ha : adapter (flags s) = VMsAdapter) by reflexivity.
  destruct (hook_success_state (failing []) s Ho) as [_ HV].
  destruct (HV Ha) as (Hv & _ & Hc & _).
  split; [exact Ho|]. split; [exact Ha|]. split; [exact Hv|exact Hc].
Defined.

(** X3.  The three ways the hook fails.  Under the Kubernetes adapter, when
    CreateInterface fails on the resolved kubeconfig the hook returns that
    error prefixed with "failed to connect to Kubernetes API.", does not ask
    for the mesh configuration, and leaves the mesh and the ipAddress,
    podName and namespace flags as they were; when GetMeshConfig fails it
    returns that error prefixed with "failed to retrieve mesh
    configuration." with the client kept.  Under the VMs adapter, when
    vmsclient.New fails it returns that error prefixed with "failed to
    create VMs client." and leaves mesh, client and flags as they were. *)
Theorem hook_failures (w : World) (s : State) :
  let f := flags s in
  let r := PersistentPreRunE w s in
  let kc := orEnv w (kubeconfig f) "KUBECONFIG" in
  let ns := orEnv w (Namespace (controllerOptions f)) "POD_NAMESPACE" in
  (adapter f = "" \/ adapter f = KubernetesAdapter ->
     (forall e, CreateInterface_err w kc = Some e ->
        outcome r = Return (Some (Prefix e "failed to connect to Kubernetes API.")) /\
        meshRequests (events r) = [] /\
        mesh (final r) = mesh s /\
        ipAddress (flags (final r)) = ipAddress f /\
        podName (flags (final r)) = podName f /\
        Namespace (controllerOptions (flags (final r))) = Namespace (controllerOptions f)) /\
     (forall e, CreateInterface_err w kc = None ->
        GetMeshConfig_res w (KubeIface kc) ns (meshConfig f) = inl e ->
        outcome r = Return (Some (Prefix e "failed to retrieve mesh configuration.")) /\
        meshRequests (events r) = [(KubeIface kc, ns, meshConfig f)] /\
        client (final r) = Some (KubeIface kc))) /\
  (adapter f = VMsAdapter ->
     forall e, vmsclient_New_err w (serverURL (vmsArgs f)) (authToken (vmsArgs f)) = Some e ->
       outcome r = Return (Some (Prefix e "failed to create VMs client.")) /\
       mesh (final r) = mesh s /\ client (final r) = client s /\ flags (final r) = f).
Proof.
  intros f r kc ns. subst f r kc ns.
  explore_hook (PersistentPreRunE w s).
  all: unfold orEnv; stable.
  all: split; [intros Ha; split; intros e' H1; [|intros H2]|intros Ha e' H1].
  all: try (destruct Ha; congruence); try (exfalso; congruence).
  all: repeat case_decide; try congruence.
  all: repeat split; congruence.
Qed.

Lemma hook_failures_witness :
  let w := failing ["kube.CreateInterface"] in
  let s := initial (defaultFlags "") in
  (adapter (flags s) = "" \/ adapter (flags s) = KubernetesAdapter) /\
  CreateInterface_err w (orEnv w (kubeconfig (flags s)) "KUBECONFIG")
    = Some (Err "kube.CreateInterface") /\
  outcome (PersistentPreRunE w s)
    = Return (Some (Prefix (Err "kube.CreateInterface")
                           "failed to connect to Kubernetes API.")) /\
  meshRequests (events (PersistentPreRunE w s)) = [].
Proof.
  intros w s.
  assert (Ha : adapter (flags s) = "" \/ adapter (flags s) = KubernetesAdapter)
    by (left; reflexivity).
  assert (He : CreateInterface_err w (orEnv w (kubeconfig (flags s)) "KUBECONFIG")
               = Some (Err "kube.CreateInterface")) by reflexivity.
  destruct (hook_failures w s) as [HK _].
  destruct (HK Ha) as [Hfail _].
  destruct (Hfail _ He) as (Ho & Hm & _).
  split; [exact Ha|]. split; [exact He|]. split; [exact Ho|exact Hm].
Defined.

(** ** The hook and the commands together *)

Lemma RunE_no_panic (w : World) (c : Command) (s : State) (p : PanicValue) :
  adapter (flags s) = KubernetesAdapter \/ adapter (flags s) = VMsAdapter ->
  is_Some (mesh s) ->
  (c = sidecarCmd -> adapter (flags s) = VMsAdapter) ->
  outcome (RunE w c s) <> Panic p.
Proof.
  intros Ha [m Hm] Hc. destruct c; explore_cmd; try done.
  all: try (destruct Ha; congruence).
  all: specialize (Hc eq_refl); congruence.
Qed.

(** X5.  The version command runs behind the hook: the process exits with
    status 0 exactly when the hook returned nil, and then the version is
    printed once, after everything the hook did. *)
Theorem version_needs_the_hook (w : World) (s : State) :
  (outcome (main w versionCmd s) = Val 0%Z <->
   outcome (PersistentPreRunE w s) = Return None) /\
  (outcome (PersistentPreRunE w s) = Return None ->
   events (main w versionCmd s)
     = events (PersistentPreRunE w s) ++ [EvPrint (version_Version w)]).
Proof.
  destruct (hook_facts w s) as (r & Hr & _).
  destruct (PersistentPreRunE w s) as [[r0 s1] t1] eqn:Hrun.
  unfold outcome, events in *; simpl in *. subst r0.
  unfold main. cbv [mbind M_bind mret M_ret emit].
  destruct r as [e|].
  - rewrite (Execute_hook_fails _ _ _ _ _ _ Hrun). simpl.
    split; [split; intros H; discriminate|intros H; discriminate].
  - rewrite (Execute_hook_ok _ _ _ _ _ Hrun). simpl.
    split; [split; reflexivity|intros _].
    by rewrite !app_nil_r.
Qed.

Lemma version_needs_the_hook_witness :
  let s := initial (defaultFlags VMsAdapter) in
  outcome (PersistentPreRunE (failing []) s) = Return None /\
  printed (events (main (failing []) versionCmd s)) = ["version"] /\
  outcome (main (failing ["vmsclient.New"]) versionCmd s) <> Val 0%Z.
Proof.
  intros s.
  assert (Ho : outcome (PersistentPreRunE (failing []) s) = Return None) by reflexivity.
  destruct (version_needs_the_hook (failing []) s) as [_ Hev].
  destruct (version_needs_the_hook (failing ["vmsclient.New"]) s) as [Hiff _].
  split; [exact Ho|]. split.
  - rewrite (Hev Ho). reflexivity.
  - intros H0. apply Hiff in H0. discriminate H0.
Defined.

(** X6.  Under the VMs adapter, started from the zero package state, the
    watcher that the ingress command runs is built from the default mesh
    configuration and from a secret registry made on a nil Kubernetes
    client: the hook never opens one under that adapter. *)
Theorem ingress_under_VMs_has_no_kube_client (w : World) (f : args) (x : Watcher) :
  adapter f = VMsAdapter ->
  x ∈ watchersRun (events (Execute w ingressCmd (initial f))) ->
  x = IngressWatcher (Some (DefaultMeshConfig w)) (MakeSecretRegistry None).
Proof.
  intros Ha.
  destruct (hook_facts w (initial f)) as (r & Hr & Hev & _ & Hok).
  apply hookEvent_projections in Hev as (_ & _ & _ & Hw & _).
  destruct (PersistentPreRunE w (initial f)) as [[r0 s1] t1] eqn:Hrun.
  unfold outcome, final, events in *; simpl in *. subst r0.
  destruct r as [e|].
  - rewrite (Execute_hook_fails _ _ _ _ _ _ Hrun). simpl.
    unfold watchersRun in *. rewrite omap_app, Hw. simpl. intros H. by in_trace.
  - rewrite (Execute_hook_ok _ _ _ _ _ Hrun). simpl.
    destruct (Hok eq_refl) as [_ HV]. destruct (HV Ha) as (_ & Hc & Hm).
    simpl in Hc. unfold watchersRun in *. rewrite omap_app, Hw. simpl.
    unfold call, ingressRunE. reduce. rewrite Hc, Hm.
    destruct (NewIngressWatcher_err w (Some (DefaultMeshConfig w))); simpl;
      intros H; in_trace; done.
Qed.

Lemma ingress_under_VMs_has_no_kube_client_witness :
  let x := IngressWatcher (Some sampleMesh) (MakeSecretRegistry None) in
  adapter (defaultFlags VMsAdapter) = VMsAdapter /\
  x ∈ watchersRun (events (Execute (failing []) ingressCmd
                                   (initial (defaultFlags VMsAdapter)))) /\
  x = IngressWatcher (Some (DefaultMeshConfig (failing []))) (MakeSecretRegistry None).
Proof.
  intros x.
  assert (Hin : x ∈ watchersRun (events (Execute (failing []) ingressCmd
                                           (initial (defaultFlags VMsAdapter))))).
  { apply list_elem_of_lookup. exists 0. reflexivity. }
  split; [reflexivity|]. split; [exact Hin|].
  exact (ingress_under_VMs_has_no_kube_client (failing []) (defaultFlags VMsAdapter) x
           eq_refl Hin).
Defined.

(** X16.  Started from the zero package state with the adapter flag empty,
    "Kubernetes" or "VMs", no statement of main.go panics in the discovery,
    ingress, egress and version commands, nor in the sidecar command under
    the VMs adapter. *)
Theorem known_adapter_never_crashes (w : World) (c : Command) (f : args)
    (p : PanicValue) :
  adapter f = "" \/ adapter f = KubernetesAdapter \/ adapter f = VMsAdapter ->
  (c = sidecarCmd -> adapter f = VMsAdapter) ->
  outcome (Execute w c (initial f)) <> Panic p.
Proof.
  intros Ha Hc Hp.
  destruct (hook_facts w (initial f)) as (r & Hr & _ & _ & Hok).
  destruct (PersistentPreRunE w (initial f)) as [[r0 s1] t1] eqn:Hrun.
  unfold outcome, final in *; simpl in *. subst r0.
  destruct r as [e|].
  - rewrite (Execute_hook_fails _ _ _ _ _ _ Hrun) in Hp. discriminate.
  - rewrite (Execute_hook_ok _ _ _ _ _ Hrun) in Hp. simpl in Hp.
    apply (call_outcome (RunE w c) s1 p) in Hp.
    destruct (Hok eq_refl) as [HK HV].
    revert Hp. apply RunE_no_panic.
    + destruct Ha as [Ha|[Ha|Ha]].
      * left. apply HK. by left.
      * left. apply HK. by right.
      * right. destruct (HV Ha) as (-> & _). exact Ha.
    + destruct Ha as [Ha|[Ha|Ha]].
      * apply HK. by left.
      * apply HK. by right.
      * destruct (HV Ha) as (_ & _ & ->). by eexists.
    + intros ->. specialize (Hc eq_refl).
      destruct (HV Hc) as (-> & _). exact Hc.
Qed.

Lemma known_adapter_never_crashes_witness :
  (adapter (defaultFlags "") = "" \/
   adapter (defaultFlags "") = KubernetesAdapter \/
   adapter (defaultFlags "") = VMsAdapter) /\
  outcome (Execute (failing []) discoveryCmd (initial (defaultFlags "")))
    <> Panic NilDereference.
Proof.
  assert (Ha : adapter (defaultFlags "") = "" \/
               adapter (defaultFlags "") = KubernetesAdapter \/
               adapter (defaultFlags "") = VMsAdapter) by (left; reflexivity).
  split; [exact Ha|].
  apply (known_adapter_never_crashes (failing []) discoveryCmd (defaultFlags "")
           NilDereference Ha).
  intros H. discriminate H.
Defined.

(** ** The command bodies *)

(** X7.  Under the VMs adapter one controller serves as service controller
    and as config controller: whenever the config controller's Run is
    started, the service controller's Run was started on the same
    vms.NewController value with the same stop channel. *)
Theorem vms_controller_runs_twice (w : World) (c : Command) (s : State)
    (x : option Controller) (stop : Chan) :
  adapter (flags s) = VMsAdapter ->
  EvGoConfigController x stop ∈ events (RunE w c s) ->
  EvGoServiceController x stop ∈ events (RunE w c s) /\
  exists m, x = Some (VmsController (vmsClient s) m) /\
            EvNewController (VmsController (vmsClient s) m) ∈ events (RunE w c s).
Proof.
  intros Ha. destruct c.
  all: explore_cmd.
  all: intros Hin; in_trace.
  all: split; [mem|eexists; split; [reflexivity|mem]].
Qed.

Lemma vms_controller_runs_twice_witness :
  let x := Some (VmsController (Some (VmsCli "" "")) (Some sampleMesh)) in
  adapter (flags vmsReady) = VMsAdapter /\
  EvGoConfigController x 0 ∈ events (RunE (failing []) discoveryCmd vmsReady) /\
  EvGoServiceController x 0 ∈ events (RunE (failing []) discoveryCmd vmsReady).
Proof.
  intros x.
  assert (Hin : EvGoConfigController x 0 ∈ events (RunE (failing []) discoveryCmd vmsReady)).
  { apply list_elem_of_lookup. exists 6. reflexivity. }
  split; [reflexivity|]. split; [exact Hin|].
  exact (proj1 (vms_controller_runs_twice (failing []) discoveryCmd vmsReady x 0
                  eq_refl Hin)).
Defined.

(** X8.  The context the sidecar command hands to envoy.NewWatcher: its
    Registraion field is always nil, also under the VMs adapter after the
    registration agent was created, because that agent is bound to a
    block-local name; Discovery and Accounts are the service controller
    given to NewWatcher, Config wraps the config controller, IPAddress and
    PassthroughPorts are the flags, and UID is kubernetes://podName.namespace
    under the Kubernetes adapter and empty otherwise. *)
Theorem sidecar_context (w : World) (s : State)
    (sc cc : option Controller) (ctx : Context) :
  EvNewWatcher sc cc ctx ∈ events (sidecarRunE w s) ->
  Registraion ctx = None /\
  (adapter (flags s) = VMsAdapter ->
     exists id, agentsBuilt (events (sidecarRunE w s)) = [(vmsClient s, id)]) /\
  Discovery ctx = sc /\ Accounts ctx = sc /\ Config ctx = MakeIstioStore cc /\
  IPAddress ctx = ipAddress (flags s) /\
  PassthroughPorts ctx = passthrough (flags s) /\
  UID ctx = (if decide (adapter (flags s) = KubernetesAdapter)
             then "kubernetes://" +:+ podName (flags s) +:+ "." +:+
                  Namespace (controllerOptions (flags s))
             else "").
Proof.
  explore (sidecarRunE w s); intros Hin; in_trace.
  all: repeat split; try done; try (intros; congruence); try (intros; by eexists).
  all: case_decide; try done; congruence.
Qed.

Lemma sidecar_context_witness :
  exists sc cc ctx,
    EvNewWatcher sc cc ctx ∈ events (sidecarRunE (failing []) vmsReady) /\
    Registraion ctx = None /\
    length (agentsBuilt (events (sidecarRunE (failing []) vmsReady))) = 1.
Proof.
  assert (exists sc cc ctx,
            events (sidecarRunE (failing []) vmsReady) !! 4 = Some (EvNewWatcher sc cc ctx))
    as (sc & cc & ctx & Hat) by (eexists _, _, _; reflexivity).
  assert (Hin : EvNewWatcher sc cc ctx ∈ events (sidecarRunE (failing []) vmsReady)).
  { apply list_elem_of_lookup. exists 4. exact Hat. }
  exists sc, cc, ctx. split; [exact Hin|].
  destruct (sidecar_context (failing []) vmsReady sc cc ctx Hin) as (Hreg & Hag & _).
  split; [exact Hreg|].
  destruct (Hag eq_refl) as [id ->]. reflexivity.
Defined.

(** X9.  The sidecar command switches the ingress controller mode of the
    package-level mesh configuration to OFF for good, keeping the rest of
    it, and every object it builds afterwards is built from that
    configuration. *)
Theorem sidecar_forces_ingress_mode_off (w : World) (s : State) (m : ProxyMeshConfig) :
  mesh s = Some m ->
  let off := Some (mkMesh ProxyMeshConfig_OFF (meshBody m)) in
  mesh (final (sidecarRunE w s)) = off /\
  (forall e m', e ∈ events (sidecarRunE w s) -> meshSeen e = Some m' -> m' = off).
Proof.
  intros Hm off. subst off. revert Hm.
  explore (sidecarRunE w s); intros Hm; simplify_eq.
  all: split; [reflexivity|].
  all: intros ev m' Hin Hseen; in_trace; try done; simpl in *; congruence.
Qed.

Lemma sidecar_forces_ingress_mode_off_witness :
  mesh kubeReady = Some sampleMesh /\
  mesh (final (sidecarRunE (failing []) kubeReady))
    = Some (mkMesh ProxyMeshConfig_OFF "mesh").
Proof.
  split; [reflexivity|].
  exact (proj1 (sidecar_forces_ingress_mode_off (failing []) kubeReady sampleMesh eq_refl)).
Defined.

(** X10.  No command body assigns the flags, the Kubernetes client or the
    VMs client, and only the sidecar command changes the mesh. *)
Theorem commands_keep_package_state (w : World) (c : Command) (s : State) :
  let s' := final (RunE w c s) in
  flags s' = flags s /\ client s' = client s /\ vmsClient s' = vmsClient s /\
  (c <> sidecarCmd -> mesh s' = mesh s).
Proof.
  intros s'. subst s'. destruct c; explore_cmd.
  all: repeat split; done.
Qed.

Lemma commands_keep_package_state_witness :
  discoveryCmd <> sidecarCmd /\
  mesh (final (RunE (failing []) discoveryCmd kubeReady)) = mesh kubeReady.
Proof.
  assert (H : discoveryCmd <> sidecarCmd) by discriminate.
  split; [exact H|].
  destruct (commands_keep_package_state (failing []) discoveryCmd kubeReady)
    as (_ & _ & _ & Hm).
  exact (Hm H).
Defined.

(** X11.  A command launches either no loop at all or all of its loops, in
    the order of its go statements and each with the one stop channel made
    in that run (the discovery responder with none); in the second case
    cmd.WaitSignal on that channel is the last thing it does and it returns
    nil. *)
Theorem launches_all_or_nothing (w : World) (c : Command) (s : State) :
  launches (events (RunE w c s)) = [] \/
  (launches (events (RunE w c s)) = fullLaunch c (nextChan s) /\
   last (events (RunE w c s)) = Some (EvWaitSignal (nextChan s)) /\
   outcome (RunE w c s) = Return None).
Proof.
  destruct c; explore_cmd.
  all: first [by left | by right].
Qed.

(** X12.  The discovery, ingress and egress commands return nil exactly
    when they have reached cmd.WaitSignal on the stop channel of the run. *)
Theorem nil_result_means_served (w : World) (c : Command) (s : State) :
  c = discoveryCmd \/ c = ingressCmd \/ c = egressCmd ->
  (outcome (RunE w c s) = Return None <->
   EvWaitSignal (nextChan s) ∈ events (RunE w c s)).
Proof.
  intros [-> | [-> | ->]]; explore_cmd.
  all: split; [intros H; simplify_eq; try mem | intros H; in_trace; try done].
Qed.

Lemma nil_result_means_served_witness :
  (ingressCmd = discoveryCmd \/ ingressCmd = ingressCmd \/ ingressCmd = egressCmd) /\
  outcome (RunE (failing []) ingressCmd kubeReady) = Return None /\
  EvWaitSignal 0 ∈ events (RunE (failing []) ingressCmd kubeReady).
Proof.
  assert (Hc : ingressCmd = discoveryCmd \/ ingressCmd = ingressCmd \/
               ingressCmd = egressCmd) by (right; left; reflexivity).
  assert (Ho : outcome (RunE (failing []) ingressCmd kubeReady) = Return None)
    by reflexivity.
  split; [exact Hc|]. split; [exact Ho|].
  exact (proj1 (nil_result_means_served (failing []) ingressCmd kubeReady Hc) Ho).
Defined.

(** X13.  Every error the discovery command returns is the error of one
    failed call: of tpr.NewClient, prefixed "failed to open a TPR client";
    of RegisterResources, prefixed "failed to register Third-Party
    Resources."; of aggregate.MakeCache, as it is; or of
    envoy.NewDiscoveryService, inside "failed to create discovery service:
    %v".  The failed call is the last thing the command did (for the last
    three), and no loop was launched and no stop channel made. *)
Theorem discovery_error_taxonomy (w : World) (s : State) (err : error) :
  outcome (discoveryRunE w s) = Return (Some err) ->
  launches (events (discoveryRunE w s)) = [] /\
  chansMade (events (discoveryRunE w s)) = [] /\
  ((exists e, err = Prefix e "failed to open a TPR client" /\
              tpr_NewClient_err w (kubeconfig (flags s))
                (Namespace (controllerOptions (flags s))) = Some e) \/
   (exists e tc, err = Prefix e "failed to register Third-Party Resources." /\
                 RegisterResources_err w tc = Some e /\
                 last (events (discoveryRunE w s)) = Some (EvRegisterResources tc)) \/
   (exists srcs, MakeCache_err w srcs = Some err /\
                 last (events (discoveryRunE w s)) = Some (EvMakeCache srcs)) \/
   (exists e sc cc ctx, err = Errorf "failed to create discovery service: %v" e /\
                 NewDiscoveryService_err w sc cc ctx = Some e /\
                 last (events (discoveryRunE w s)) = Some (EvNewDiscoveryService sc cc ctx))).
Proof.
  explore (discoveryRunE w s); intros H; simplify_eq.
  all: split; [reflexivity|split; [reflexivity|]].
  all: first [ left; eexists; split; [reflexivity|done]
             | right; left; eexists _, _; split; [reflexivity|split; [done|reflexivity]]
             | right; right; left; eexists; split; [done|reflexivity]
             | right; right; right; eexists _, _, _, _;
               split; [reflexivity|split; [done|reflexivity]] ].
Qed.

Lemma discovery_error_taxonomy_witness :
  let w := failing ["envoy.NewDiscoveryService"] in
  let err := Errorf "failed to create discovery service: %v"
                    (Err "envoy.NewDiscoveryService") in
  outcome (discoveryRunE w vmsReady) = Return (Some err) /\
  launches (events (discoveryRunE w vmsReady)) = [] /\
  chansMade (events (discoveryRunE w vmsReady)) = [].
Proof.
  intros w err.
  assert (Ho : outcome (discoveryRunE w vmsReady) = Return (Some err)) by reflexivity.
  destruct (discovery_error_taxonomy w vmsReady err Ho) as (Hl & Hc & _).
  split; [exact Ho|]. split; [exact Hl|exact Hc].
Defined.

(** X17.  Every error the sidecar command returns comes from the VMs branch
    (loadFromFile, identity.New, register.NewRegistrationAgent, each with
    its prefix) or is the error of envoy.NewWatcher as it is; a failure of
    tpr.NewClient is never among them.  No loop was launched. *)
Theorem sidecar_error_taxonomy (w : World) (s : State) (err : error) :
  outcome (sidecarRunE w s) = Return (Some err) ->
  launches (events (sidecarRunE w s)) = [] /\
  ((adapter (flags s) = VMsAdapter /\
    exists e, (err = Prefix e "failed to read vms config file." /\
               last (events (sidecarRunE w s))
                 = Some (EvLoadFromFile (config (vmsArgs (flags s))))) \/
              (exists c, err = Prefix e "failed to create identity for service." /\
                         last (events (sidecarRunE w s)) = Some (EvIdentityNew c)) \/
              (exists r i, err = Prefix e "failed to create registration agent." /\
                           last (events (sidecarRunE w s))
                             = Some (EvNewRegistrationAgent r i))) \/
   (exists sc cc ctx, NewWatcher_err w sc cc ctx = Some err /\
                      last (events (sidecarRunE w s)) = Some (EvNewWatcher sc cc ctx))).
Proof.
  explore (sidecarRunE w s); intros H; simplify_eq.
  all: split; [reflexivity|].
  all: first [ right; eexists _, _, _; split; [done|reflexivity]
             | left; split; [done|]; eexists; left; split; reflexivity
             | left; split; [done|]; eexists; right; left; eexists; split; reflexivity
             | left; split; [done|]; eexists; right; right; eexists _, _; split; reflexivity ].
Qed.

Lemma sidecar_error_taxonomy_witness :
  let w := failing ["identity.New"] in
  let err := Prefix (Err "identity.New") "failed to create identity for service." in
  outcome (sidecarRunE w vmsReady) = Return (Some err) /\
  launches (events (sidecarRunE w vmsReady)) = [].
Proof.
  intros w err.
  assert (Ho : outcome (sidecarRunE w vmsReady) = Return (Some err)) by reflexivity.
  split; [exact Ho|].
  exact (proj1 (sidecar_error_taxonomy w vmsReady err Ho)).
Defined.

(** X14.  A command body panics only on a nil value of main.go's own: the
    discovery command at the go statement on the nil service controller,
    under an adapter that is neither "Kubernetes" nor "VMs"; the sidecar
    command at its first statement when the mesh is nil, or at the go
    statement on the nil service controller under an adapter other than
    "VMs".  The ingress, egress and version commands never do. *)
Theorem panics_only_on_nil (w : World) (c : Command) (s : State) (p : PanicValue) :
  outcome (RunE w c s) = Panic p ->
  (c = discoveryCmd /\ adapter (flags s) <> KubernetesAdapter /\
   adapter (flags s) <> VMsAdapter /\
   last (events (RunE w c s)) = Some (EvGoServiceController None (nextChan s))) \/
  (c = sidecarCmd /\ mesh s = None /\ events (RunE w c s) = []) \/
  (c = sidecarCmd /\ adapter (flags s) <> VMsAdapter /\
   last (events (RunE w c s)) = Some (EvGoServiceController None (nextChan s))).
Proof.
  destruct c; explore_cmd; intros H; simplify_eq.
  all: first [ by left | by right; left | right; right; repeat split; try done ].
  all: unfold VMsAdapter; congruence.
Qed.

Lemma panics_only_on_nil_witness :
  let s := initial (defaultFlags "Eureka") in
  outcome (RunE (failing []) sidecarCmd s) = Panic NilDereference /\
  mesh s = None /\ events (RunE (failing []) sidecarCmd s) = [].
Proof.
  intros s.
  assert (Ho : outcome (RunE (failing []) sidecarCmd s) = Panic NilDereference)
    by reflexivity.
  split; [exact Ho|].
  destruct (panics_only_on_nil (failing []) sidecarCmd s NilDereference Ho)
    as [(Hc & _)|[(_ & Hm & He)|(_ & Ha & _)]].
  - discriminate Hc.
  - split; [exact Hm|exact He].
  - split; reflexivity.
Defined.

(** X15.  Under any adapter other than "VMs" the sidecar command never
    launches a loop and never reaches cmd.WaitSignal, whatever the
    collaborators answer. *)
Theorem sidecar_serves_only_under_VMs (w : World) (s : State) :
  adapter (flags s) <> VMsAdapter ->
  launches (events (sidecarRunE w s)) = [] /\
  (forall stop, EvWaitSignal stop ∉ events (sidecarRunE w s)).
Proof.
  intros Ha. explore (sidecarRunE w s).
  all: split; [reflexivity|intros stop Hin; in_trace].
Qed.

Lemma sidecar_serves_only_under_VMs_witness :
  adapter (flags kubeReady) <> VMsAdapter /\
  launches (events (sidecarRunE (failing []) kubeReady)) = [].
Proof.
  assert (Ha : adapter (flags kubeReady) <> VMsAdapter) by discriminate.
  split; [exact Ha|].
  exact (proj1 (sidecar_serves_only_under_VMs (failing []) kubeReady Ha)).
Defined.
